(** * Movie reviews 2023: the notebook's collector, cleaner, tokenizer and
    sentiment wrapper

    A shallow embedding of [notebooks/analysis.ipynb].  The notebook is glue
    around libraries (requests, BeautifulSoup, pandas, NLTK); the glue is
    translated cell by cell, the library calls it makes are either written
    out (the string methods, [drop_duplicates], [word_tokenize] on the texts
    that reach it) or taken as parameters of the development (the Unicode
    tables behind [str.lower], [\w], [\d] and [\s], the stop-word list,
    [float], [datetime.strptime], the HTTP fetch, VADER's compound score).

    Python strings are sequences of code points: [list N]. *)

From Stdlib Require Import ZArith NArith QArith Lia List String Ascii Bool.
From Stdlib Require Import DecimalString DecimalPos DecimalZ.
From Stdlib Require Import Lqa Sorted.
From stdpp Require Import base decidable option list gmap.
Import ListNotations.

(* ================================================================== *)
(** * Python values *)
(* ================================================================== *)

(** A call either returns or raises; the notebook never looks at the
    exception it catches, so [Raised] carries nothing. *)
Inductive outcome (A : Type) : Type :=
| Returned (a : A)
| Raised.
Arguments Returned {A} a.
Arguments Raised {A}.

(** [try: x = e / except: x = None]. *)
Definition try_except {A : Type} (o : outcome A) : option A :=
  match o with
  | Returned a => Some a
  | Raised => None
  end.

(** A Python float: a binary64 number, given by the rational it is (the two
    zeros are one value here), an infinity or NaN. *)
Inductive pyfloat : Type :=
| Finite (q : Q)
| PosInf
| NegInf
| NaN.

(** [datetime] at midnight, as [strptime] with a date-only format builds it. *)
Record date : Type := { year : Z; month : Z; day : Z }.

(** U+0020, the separator of [" ".join] and the replacement of both
    [re.sub] calls. *)
Definition SP : N := 32%N.

(** Source text of this file is UTF-8; literals are decoded to code points. *)
Fixpoint utf8_decode (bytes : list N) : list N :=
  match bytes with
  | [] => []
  | b0 :: rest =>
      if (b0 <? 0x80)%N then b0 :: utf8_decode rest
      else if (b0 <? 0xE0)%N then
        match rest with
        | b1 :: rest' =>
            ((b0 - 0xC0) * 0x40 + (b1 - 0x80))%N :: utf8_decode rest'
        | _ => []
        end
      else if (b0 <? 0xF0)%N then
        match rest with
        | b1 :: b2 :: rest' =>
            ((b0 - 0xE0) * 0x1000 + (b1 - 0x80) * 0x40 + (b2 - 0x80))%N
              :: utf8_decode rest'
        | _ => []
        end
      else
        match rest with
        | b1 :: b2 :: b3 :: rest' =>
            ((b0 - 0xF0) * 0x40000 + (b1 - 0x80) * 0x1000
             + (b2 - 0x80) * 0x40 + (b3 - 0x80))%N :: utf8_decode rest'
        | _ => []
        end
  end.

Definition utf8 (s : string) : list N :=
  utf8_decode (map N_of_ascii (list_ascii_of_string s)).
Arguments utf8 s%_string.

(** [str(n)] / [f"{n}"] for an int. *)
Definition str_of_int (n : Z) : list N :=
  utf8 (NilZero.string_of_int (Z.to_int n)).

(** [range(lo, hi)]. *)
Definition py_range (lo hi : Z) : list Z :=
  map (fun i => (lo + Z.of_nat i)%Z) (seq 0 (Z.to_nat (hi - lo))).

(* ================================================================== *)
(** * String methods *)
(* ================================================================== *)

Section PyStr.

Variable isspace : N -> bool.

(** [s.lstrip()], [s.rstrip()], [s.strip()]. *)
Fixpoint lstrip (s : list N) : list N :=
  match s with
  | [] => []
  | c :: s' => if isspace c then lstrip s' else s
  end.

Definition rstrip (s : list N) : list N := rev (lstrip (rev s)).

Definition strip (s : list N) : list N := rstrip (lstrip s).

(** [s.split()]: maximal runs of non-whitespace; [word] is the run being
    read, most recent character first. *)
Fixpoint split_from (word s : list N) : list (list N) :=
  match s with
  | [] => match word with [] => [] | _ => [rev word] end
  | c :: s' =>
      if isspace c then
        match word with
        | [] => split_from [] s'
        | _ => rev word :: split_from [] s'
        end
      else split_from (c :: word) s'
  end.

Definition split (s : list N) : list (list N) := split_from [] s.

End PyStr.

(** [sep.join(l)]. *)
Fixpoint join (sep : list N) (l : list (list N)) : list N :=
  match l with
  | [] => []
  | [x] => x
  | x :: l' => x ++ sep ++ join sep l'
  end.

(** [s.split(sep)] for a one-character separator: always at least one
    field. *)
Fixpoint split_on_from (sep : N) (field s : list N) : list (list N) :=
  match s with
  | [] => [rev field]
  | c :: s' =>
      if (c =? sep)%N then rev field :: split_on_from sep [] s'
      else split_on_from sep (c :: field) s'
  end.

Definition split_on (sep : N) (s : list N) : list (list N) :=
  split_on_from sep [] s.

(** [s.rstrip(ch)] for a one-character argument. *)
Definition rstrip_char (ch : N) (s : list N) : list N :=
  rev (lstrip (N.eqb ch) (rev s)).

(* ================================================================== *)
(** * The reviews table *)
(* ================================================================== *)

(** One review: the dict the collector appends, and later one row of the
    DataFrame.  [None] is Python's [None] in the collector and pandas'
    missing value in the table (an empty CSV field reads back as missing). *)
Record review : Type := {
  movie_id : list N;
  review_text : option (list N);
  rating : option pyfloat;
  review_date : option date;
  author : option (list N)
}.

(** What the collector reads off one [<div class="reviewItem">]: for each
    of the four selectors, [None] when [block.find] finds nothing, else the
    element's [get_text(strip=True)]. *)
Record block : Type := {
  text_el : option (list N);
  rating_el : option (list N);
  date_el : option (list N);
  author_el : option (list N)
}.

(** What the collector does to the outside world, in order. *)
Inductive event : Type :=
| Get (url : list N)
| Sleep (seconds : Q)
| PrintError (m_url : list N)
| PrintProgress (idx : Z).

(* ================================================================== *)
(** * Sample library tables

    The library tables are parameters of the development.  The instances
    below are their restriction to Basic Latin and Cyrillic U+0400..U+045F
    (the whitespace table and [float] are complete); worked examples and
    witnesses run on them. *)
(* ================================================================== *)

Definition in_range (lo hi c : N) : bool := ((lo <=? c) && (c <=? hi))%N.

(** Every code point for which [str.isspace] holds. *)
Definition whitespace_table : list N :=
  [0x9; 0xA; 0xB; 0xC; 0xD; 0x1C; 0x1D; 0x1E; 0x1F; 0x20; 0x85; 0xA0;
   0x1680; 0x2000; 0x2001; 0x2002; 0x2003; 0x2004; 0x2005; 0x2006;
   0x2007; 0x2008; 0x2009; 0x200A; 0x2028; 0x2029; 0x202F; 0x205F;
   0x3000]%N.

Definition sample_isspace (c : N) : bool := existsb (N.eqb c) whitespace_table.

Definition sample_isdigit (c : N) : bool := in_range 48 57 c.

Definition sample_isword (c : N) : bool :=
  in_range 48 57 c || in_range 65 90 c || (c =? 95)%N || in_range 97 122 c
  || in_range 0x400 0x45F c.

Definition sample_lower_char (c : N) : N :=
  if in_range 65 90 c then (c + 32)%N
  else if in_range 0x400 0x40F c then (c + 0x50)%N
  else if in_range 0x410 0x42F c then (c + 0x20)%N
  else c.

Definition sample_lower (s : list N) : list N := map sample_lower_char s.

(** The first twenty entries of NLTK's Russian stop-word list. *)
Definition sample_stop : gset (list N) :=
  list_to_set (map utf8 ["и"; "в"; "во"; "не"; "что"; "он"; "на"; "я"; "с";
                         "со"; "как"; "а"; "то"; "все"; "она"; "так"; "его";
                         "но"; "да"; "ты"])%string.

(** ** [float(text)]

    The text is made ASCII, blanks at both ends are dropped, underscores
    between digits are dropped, and what is left is read as
    [[+-] (inf | infinity | nan)] or
    [[+-] (digits [. [digits]] | . digits) [(e|E) [+-] digits]]; the value
    is rounded to the nearest binary64 number. *)

Definition digit_value (c : N) : option N :=
  if in_range 48 57 c then Some (c - 48)%N else None.

(** The zeros of the decimal digits of Unicode (version 14); the digits of
    a script are ten code points in a row. *)
Definition decimal_zero_table : list N :=
  [0x30; 0x660; 0x6F0; 0x7C0; 0x966; 0x9E6; 0xA66; 0xAE6; 0xB66; 0xBE6;
   0xC66; 0xCE6; 0xD66; 0xDE6; 0xE50; 0xED0; 0xF20; 0x1040; 0x1090;
   0x17E0; 0x1810; 0x1946; 0x19D0; 0x1A80; 0x1A90; 0x1B50; 0x1BB0;
   0x1C40; 0x1C50; 0xA620; 0xA8D0; 0xA900; 0xA9D0; 0xA9F0; 0xAA50;
   0xABF0; 0xFF10; 0x104A0; 0x10D30; 0x11066; 0x110F0; 0x11136; 0x111D0;
   0x112F0; 0x11450; 0x114D0; 0x11650; 0x116C0; 0x11730; 0x118E0;
   0x11950; 0x11C50; 0x11D50; 0x11DA0; 0x16A60; 0x16AC0; 0x16B50;
   0x1D7CE; 0x1D7D8; 0x1D7E2; 0x1D7EC; 0x1D7F6; 0x1E140; 0x1E2F0;
   0x1E950; 0x1FBF0]%N.

(** What [float] makes of a character before it reads the text: a
    character below U+007F stays, whitespace becomes a blank, a decimal
    digit its ASCII digit, and anything else a question mark. *)
Definition to_ascii (c : N) : N :=
  if (c <? 127)%N then c
  else if sample_isspace c then 32%N
  else
    match List.find (fun zero => in_range zero (zero + 9) c) decimal_zero_table with
    | Some zero => (48 + (c - zero))%N
    | None => 63%N
    end.

(** The whitespace [float] strips from both ends: of the control
    characters only U+0009..U+000D. *)
Definition ascii_isspace (c : N) : bool := in_range 9 13 c || (c =? 32)%N.

(** Reads a maximal run of digits onto [acc]; [count] digits were read. *)
Fixpoint read_digits (s : list N) (acc : N) (count : nat) : N * nat * list N :=
  match s with
  | [] => (acc, count, [])
  | c :: s' =>
      match digit_value c with
      | Some d => read_digits s' (10 * acc + d)%N (S count)
      | None => (acc, count, s)
      end
  end.

Definition read_sign (s : list N) : bool * list N :=
  match s with
  | 45%N :: s' => (true, s')
  | 43%N :: s' => (false, s')
  | _ => (false, s)
  end.

Definition ascii_lower_char (c : N) : N :=
  if in_range 65 90 c then (c + 32)%N else c.

(** Underscores may group digits: each one stands between two digits, and
    the text is read without them.  [prev] is the character before [s]. *)
Fixpoint drop_underscores (prev : option N) (s : list N) : option (list N) :=
  match s with
  | [] => if bool_decide (prev = Some 95%N) then None else Some []
  | c :: s' =>
      if (c =? 95)%N then
        match prev ≫= digit_value with
        | Some _ => drop_underscores (Some c) s'
        | None => None
        end
      else if bool_decide (prev = Some 95%N)
              && negb (bool_decide (is_Some (digit_value c)))
      then None
      else (fun rest => c :: rest) <$> drop_underscores (Some c) s'
  end.

(** [num / den / 2 ^ k] as a fraction. *)
Definition scale2 (num den k : Z) : Z * Z :=
  if (0 <=? k)%Z then (num, den * 2 ^ k)%Z else (num * 2 ^ (- k), den)%Z.

(** The binary64 number nearest to [num / den] (for [0 <= num], [0 < den]),
    ties to the even significand; infinity from [2 ^ 1024] on. *)
Definition binary64_nearest (num den : Z) : pyfloat :=
  if (num =? 0)%Z then Finite 0
  else
    let e0 := (Z.log2 num - Z.log2 den)%Z in
    let '(n1, d1) := scale2 num den e0 in
    let e := if (d1 <=? n1)%Z then e0 else (e0 - 1)%Z in
    let u := Z.max (e - 52) (- 1074) in
    let '(n2, d2) := scale2 num den u in
    let m := (n2 / d2)%Z in
    let r := (n2 mod d2)%Z in
    let m' :=
      if (d2 <? 2 * r)%Z || ((2 * r =? d2)%Z && Z.odd m) then (m + 1)%Z else m in
    if (971 <? u)%Z || ((u =? 971)%Z && (m' =? 2 ^ 53)%Z) then PosInf
    else if (0 <=? u)%Z then Finite (Qmake (m' * 2 ^ u) 1)
    else Finite (Qred (Qmake m' (Z.to_pos (2 ^ (- u))))).

(** [-x]. *)
Definition negate (x : pyfloat) : pyfloat :=
  match x with
  | Finite q => Finite (Qred (- q))
  | PosInf => NegInf
  | NegInf => PosInf
  | NaN => NaN
  end.

(** The float for [mantissa * 10 ^ e], signed. *)
Definition decimal_value (neg : bool) (mantissa : N) (e : Z) : pyfloat :=
  let x :=
    if (0 <=? e)%Z then binary64_nearest (Z.of_N mantissa * 10 ^ e) 1
    else binary64_nearest (Z.of_N mantissa) (10 ^ (- e)) in
  if neg then negate x else x.

Definition read_float (s : list N) : outcome pyfloat :=
  let '(neg, s) := read_sign s in
  let word := map ascii_lower_char s in
  if bool_decide (word = utf8 "inf" \/ word = utf8 "infinity") then
    Returned (if neg then NegInf else PosInf)
  else if bool_decide (word = utf8 "nan") then Returned NaN
  else
    let '(int_part, n_int, s1) := read_digits s 0%N 0%nat in
    let '(mantissa, n_frac, s2) :=
      match s1 with
      | 46%N :: s1' => read_digits s1' int_part 0%nat
      | _ => (int_part, 0%nat, s1)
      end in
    if (n_int + n_frac =? 0)%nat then Raised
    else
      match s2 with
      | [] => Returned (decimal_value neg mantissa (- Z.of_nat n_frac))
      | e :: s3 =>
          if bool_decide (e = 101%N \/ e = 69%N) then
            let '(eneg, s4) := read_sign s3 in
            let '(ex, n_exp, s5) := read_digits s4 0%N 0%nat in
            match n_exp, s5 with
            | S _, [] =>
                let ez := if eneg then (- Z.of_N ex)%Z else Z.of_N ex in
                Returned (decimal_value neg mantissa (ez - Z.of_nat n_frac))
            | _, _ => Raised
            end
          else Raised
      end.

Definition sample_float (text : list N) : outcome pyfloat :=
  match drop_underscores None (strip ascii_isspace (map to_ascii text)) with
  | Some s => read_float s
  | None => Raised
  end.

(** ** [datetime.strptime(text, "%d.%m.%Y")] on ASCII digits *)

Definition is_leap (y : Z) : bool :=
  ((y mod 4 =? 0) && negb (y mod 100 =? 0) || (y mod 400 =? 0))%Z.

Definition days_in_month (y m : Z) : Z :=
  if (m =? 2)%Z then (if is_leap y then 29 else 28)%Z
  else if ((m =? 4) || (m =? 6) || (m =? 9) || (m =? 11))%Z then 30%Z
  else 31%Z.

(** A field of one or two digits (a blank may stand for the first when
    [blank_ok], as [%d] allows), read as a number. *)
Definition one_or_two_digits (blank_ok : bool) (field : list N) : option Z :=
  match field with
  | [c] => Z.of_N <$> digit_value c
  | [c1; c2] =>
      match digit_value c2 with
      | Some d2 =>
          if blank_ok && (c1 =? 32)%N then Some (Z.of_N d2)
          else (fun d1 => Z.of_N (10 * d1 + d2)) <$> digit_value c1
      | None => None
      end
  | _ => None
  end.

Definition four_digits (field : list N) : option Z :=
  match field with
  | [c1; c2; c3; c4] =>
      match digit_value c1, digit_value c2, digit_value c3, digit_value c4 with
      | Some d1, Some d2, Some d3, Some d4 =>
          Some (Z.of_N (1000 * d1 + 100 * d2 + 10 * d3 + d4))
      | _, _, _, _ => None
      end
  | _ => None
  end.

Definition sample_strptime (text : list N) : outcome date :=
  match split_on 46%N text with
  | [d; m; y] =>
      match one_or_two_digits true d, one_or_two_digits false m, four_digits y with
      | Some dd, Some mm, Some yy =>
          if ((1 <=? yy) && (1 <=? mm) && (mm <=? 12) && (1 <=? dd)
              && (dd <=? days_in_month yy mm))%Z
          then Returned {| year := yy; month := mm; day := dd |}
          else Raised
      | _, _, _ => Raised
      end
  | _ => Raised
  end.

(* ================================================================== *)
(** * The notebook *)
(* ================================================================== *)

(** ** Cell 8, first step: [df.drop_duplicates(subset=["review_text",
    "author"], inplace=True)]

    pandas keeps the first row of every key ([keep="first"]) and counts two
    missing values as the same value; [seen] is its table of keys met so
    far. *)

Definition key (r : review) : option (list N) * option (list N) :=
  (review_text r, author r).

Fixpoint drop_duplicates_from
    (seen : gset (option (list N) * option (list N))) (df : list review)
    : list review :=
  match df with
  | [] => []
  | r :: df' =>
      if bool_decide (key r ∈ seen) then drop_duplicates_from seen df'
      else r :: drop_duplicates_from ({[key r]} ∪ seen) df'
  end.

Definition drop_duplicates (df : list review) : list review :=
  drop_duplicates_from ∅ df.

(** ** Cell 10: what [word_tokenize] does to the text it is given here

    [preprocess_text] hands [word_tokenize] a lower-cased text in which
    every character is whitespace, a letter-like character or an
    underscore.  Punkt splits sentences at [.], [?] and [!] only, and every
    quote, punctuation, bracket and dash rule of the Treebank tokenizer
    needs a character that is gone; what is left of it are the
    contractions written without an apostrophe, each a whole word matched
    with [(?i)] and cut in two, and the final [text.split()]. *)

Definition contractions : list (list N * list N) :=
  [(utf8 "can", utf8 "not"); (utf8 "gim", utf8 "me"); (utf8 "gon", utf8 "na");
   (utf8 "got", utf8 "ta"); (utf8 "lem", utf8 "me"); (utf8 "wan", utf8 "na")].

(** Among lower-cased characters [(?i)] lets a pattern letter match itself
    and, for [i], the dotless U+0131. *)
Definition letter_matches (p c : N) : bool :=
  (c =? p)%N || ((p =? 105)%N && (c =? 0x131)%N).

Fixpoint word_matches (pattern word : list N) : bool :=
  match pattern, word with
  | [], [] => true
  | p :: pattern', c :: word' => letter_matches p c && word_matches pattern' word'
  | _, _ => false
  end.

Definition split_contraction (word : list N) : list (list N) :=
  match List.find (fun ab => word_matches (fst ab ++ snd ab) word) contractions with
  | Some ab => [take (length (fst ab)) word; drop (length (fst ab)) word]
  | None => [word]
  end.

Section Notebook.

(** [str.isspace] (also [\s] and the separator of [str.split()]),
    [\w] ([str.isalnum] or underscore) and [\d] ([str.isdecimal]). *)
Variable isspace isword isdigit : N -> bool.
(** [str.lower]. *)
Variable lower : list N -> list N.
(** [set(stopwords.words("russian"))]. *)
Variable russian_stop : gset (list N).
(** [float] and [datetime.strptime(_, "%d.%m.%Y")]; both raise on text
    they cannot read. *)
Variable py_float : list N -> outcome pyfloat.
Variable strptime_dmy : list N -> outcome date.
(** [requests.get(url, headers=headers)], parsed, then
    [soup.find_all("div", class_="reviewItem")]: the review blocks of the
    page, unless the request raises. *)
Variable requests_get : list N -> outcome (list block).
(** [sia.polarity_scores(text)["compound"]]. *)
Variable polarity_compound : list N -> pyfloat.

(** ** Cell 6: the collector *)

(** [movie_url.rstrip("/").split("/")[-1]]. *)
Definition movie_id_of (movie_url : list N) : list N :=
  List.last (split_on 47%N (rstrip_char 47%N movie_url)) [].

(** [movie_url + f"reviews/?page={page_num}"]. *)
Definition reviews_page_url (movie_url : list N) (page_num : Z) : list N :=
  movie_url ++ utf8 "reviews/?page=" ++ str_of_int page_num.

(** The body of [for block in review_blocks], up to the dict it appends. *)
Definition review_of_block (id : list N) (b : block) : review :=
  let text := match text_el b with Some t => t | None => [] end in
  let rating_value :=
    match rating_el b with
    | Some t => try_except (py_float t)
    | None => None
    end in
  let date_str := match date_el b with Some t => t | None => [] end in
  let date_value := try_except (strptime_dmy date_str) in
  let author_name := match author_el b with Some t => t | None => [] end in
  {| movie_id := id;
     review_text := Some text;
     rating := rating_value;
     review_date := date_value;
     author := Some author_name |}.

(** [for block in review_blocks: ... reviews.append({...})]. *)
Definition append_reviews (id : list N) (review_blocks : list block)
    (reviews : list review) : list review :=
  fold_left (fun acc b => acc ++ [review_of_block id b]) review_blocks reviews.

(** [for page_num in range(1, max_pages + 1)]: the events of the loop and
    how the function ends. *)
Fixpoint scrape_pages (movie_url id : list N) (pages : list Z)
    (reviews : list review) : list event * outcome (list review) :=
  match pages with
  | [] => ([], Returned reviews)
  | page_num :: pages' =>
      let url := reviews_page_url movie_url page_num in
      match requests_get url with
      | Raised => ([Get url], Raised)
      | Returned [] => ([Get url], Returned reviews)
      | Returned review_blocks =>
          let reviews' := append_reviews id review_blocks reviews in
          let rest := scrape_pages movie_url id pages' reviews' in
          (Get url :: Sleep 0.5 :: fst rest, snd rest)
      end
  end.

Definition scrape_reviews_for_movie (movie_url : list N) (max_pages : Z)
    : list event * outcome (list review) :=
  scrape_pages movie_url (movie_id_of movie_url) (py_range 1 (max_pages + 1)) [].

(** [for idx, m_url in enumerate(movie_urls, 1)]: a movie whose scrape
    raises is reported and contributes nothing. *)
Fixpoint collect_from (idx : Z) (movie_urls : list (list N))
    (all_reviews : list review) : list event * list review :=
  match movie_urls with
  | [] => ([], all_reviews)
  | m_url :: movie_urls' =>
      let scraped := scrape_reviews_for_movie m_url 3 in
      let caught :=
        match snd scraped with Returned _ => [] | Raised => [PrintError m_url] end in
      let all_reviews' :=
        match snd scraped with
        | Returned revs => all_reviews ++ revs
        | Raised => all_reviews
        end in
      let progress := if (idx mod 10 =? 0)%Z then [PrintProgress idx] else [] in
      let rest := collect_from (idx + 1) movie_urls' all_reviews' in
      (fst scraped ++ caught ++ progress ++ Sleep 1 :: fst rest, snd rest)
  end.

Definition collect_all_reviews (movie_urls : list (list N))
    : list event * list review :=
  collect_from 1 movie_urls [].

(** ** Cell 8, second step:
    [df = df[df["review_text"].notna() & (df["review_text"].str.strip() != "")]]

    The table is the frame [read_csv] returned.  Its text column has the
    object dtype (strings, missing values between them) when some cell is
    a text, and also when the table has no row; when the table has rows
    and none of them has a text, every cell is NaN and the dtype is
    float64, on which [.str] raises AttributeError. *)

Definition notna (cell : option (list N)) : bool :=
  match cell with Some _ => true | None => false end.

(** Whether [df["review_text"].str] can be had. *)
Definition str_accessor_ok (df : list review) : bool :=
  match df with
  | [] => true
  | _ :: _ => existsb (fun r => notna (review_text r)) df
  end.

(** [Series.str.strip()]: a missing cell stays missing. *)
Definition str_strip (cell : option (list N)) : option (list N) :=
  strip isspace <$> cell.

(** [Series != ""]: a missing cell is different from every string. *)
Definition ne_empty (cell : option (list N)) : bool :=
  match cell with
  | Some s => negb (bool_decide (s = []))
  | None => true
  end.

Definition text_mask (r : review) : bool :=
  notna (review_text r) && ne_empty (str_strip (review_text r)).

Definition drop_empty_text (df : list review) : outcome (list review) :=
  if str_accessor_ok df then Returned (List.filter text_mask df) else Raised.

(** The two steps; [drop_duplicates] works in place and does not raise. *)
Definition clean (df : list review) : outcome (list review) :=
  drop_empty_text (drop_duplicates df).

(** ** Cell 10: the tokenizer *)

(** [punct_pattern.sub(" ", text)] with [punct_pattern = [^\w\s]]. *)
Definition punct_sub (text : list N) : list N :=
  map (fun c => if isword c || isspace c then c else SP) text.

(** [re.sub(r"\d+", " ", text)]: one blank for every maximal run of
    digits; [in_run] says the previous character was a digit. *)
Fixpoint digits_sub_from (in_run : bool) (text : list N) : list N :=
  match text with
  | [] => []
  | c :: text' =>
      if isdigit c then
        if in_run then digits_sub_from true text'
        else SP :: digits_sub_from true text'
      else c :: digits_sub_from false text'
  end.

Definition digits_sub (text : list N) : list N := digits_sub_from false text.

Definition word_tokenize (text : list N) : list (list N) :=
  flat_map split_contraction (split isspace text).

(** [tok not in russian_stop and len(tok) > 2]. *)
Definition keep_token (tok : list N) : bool :=
  negb (bool_decide (tok ∈ russian_stop)) && (2 <? length tok)%nat.

Definition preprocess_text (text : list N) : list N :=
  let text1 := lower text in
  let text2 := punct_sub text1 in
  let text3 := digits_sub text2 in
  let tokens := word_tokenize text3 in
  let tokens' := List.filter keep_token tokens in
  join [SP] tokens'.

(** [df["clean_text"] = df["review_text"].fillna("").apply(preprocess_text)]. *)
Definition clean_text (r : review) : list N :=
  preprocess_text (default [] (review_text r)).

(** ** Cell 18: the sentiment score *)

(** [text] is [None] or a string ([clean_text] is always a string);
    [not text] holds for [None] and for the empty string. *)
Definition get_sentiment_score (text : option (list N)) : option pyfloat :=
  match text with
  | None => None
  | Some s =>
      if bool_decide (s = []) || bool_decide (strip isspace s = []) then None
      else Some (polarity_compound s)
  end.

(** [df["sentiment_score"] = df["clean_text"].apply(get_sentiment_score)]. *)
Definition sentiment_score (r : review) : option pyfloat :=
  get_sentiment_score (Some (clean_text r)).

End Notebook.

(* ================================================================== *)
(** * Vocabulary of the properties *)
(* ================================================================== *)

(** A blank text: missing, empty or whitespace only. *)
Definition blank (isspace : N -> bool) (cell : option (list N)) : bool :=
  match cell with
  | None => true
  | Some s => forallb isspace s
  end.




(** A table has a text when one of its rows has one (blank or not). *)
Definition has_text (df : list review) : Prop :=
  exists r : review, In r df /\ review_text r <> None.

(** "A non-null rating lies in [0, 10]". *)
Definition rating_in_range (x : pyfloat) : Prop :=
  match x with
  | Finite q => (0 <= q /\ q <= 10)%Q
  | _ => False
  end.

(** A word as [str.split()] returns it: not empty, no whitespace inside. *)
Definition is_word (isspace : N -> bool) (tok : list N) : Prop :=
  tok <> [] /\ Forall (fun c => isspace c = false) tok.

(** The tokens of a cleaned text, as [str.split()] reads them back. *)
Definition tokens_of (isspace : N -> bool) (clean : list N) : list (list N) :=
  split isspace clean.

(** The pages a run of the collector asked for, in order. *)
Fixpoint fetched (events : list event) : list (list N) :=
  match events with
  | [] => []
  | Get url :: events' => url :: fetched events'
  | _ :: events' => fetched events'
  end.

(** The review blocks a page shows (none when the request fails). *)
Definition page_blocks (requests_get : list N -> outcome (list block))
    (url : list N) : list block :=
  match requests_get url with
  | Returned review_blocks => review_blocks
  | Raised => []
  end.

(** A page that shows at least one review block. *)
Definition has_reviews (requests_get : list N -> outcome (list block))
    (url : list N) : Prop :=
  exists review_blocks : list block,
    requests_get url = Returned review_blocks /\ review_blocks <> [].

(** "Every non-null rating lies in [0, 10]", of a list of reviews. *)
Definition ratings_in_range (reviews : list review) : Prop :=
  forall (r : review) (x : pyfloat),
    In r reviews -> rating r = Some x -> rating_in_range x.

(* ================================================================== *)
(** * Sample data *)
(* ================================================================== *)

Definition sample_movie_url : list N := utf8 "https://www.kinopoisk.ru/film/1234567/".

Definition sample_row (text who : option (list N)) : review :=
  {| movie_id := utf8 "1234567"; review_text := text; rating := None;
     review_date := None; author := who |}.

(** The fixture of the spec: one valid row, its duplicate, one blank row. *)
Definition sample_valid : review :=
  sample_row (Some (utf8 "Отличный фильм! 10/10")) (Some (utf8 "kinoman")).
Definition sample_blank : review := sample_row None (Some (utf8 "kinoman")).
Definition sample_df : list review := [sample_valid; sample_valid; sample_blank].


(** Two rows, none with a text. *)
Definition sample_no_text : list review :=
  [sample_blank; sample_row None (Some (utf8 "fan"))].

(** A review made of stop words, digits and a two-letter word. *)
Definition sample_stopwords_only : review :=
  sample_row (Some (utf8 "Так как? 10 из 10")) (Some (utf8 "kinoman")).

(** Three review blocks: a well-formed one, one whose rating and date
    cannot be read, one whose rating reads as 11. *)
Definition block_ok : block :=
  {| text_el := Some (utf8 "Отличный фильм! 10/10");
     rating_el := Some (utf8 "9");
     date_el := Some (utf8 "12.03.2023");
     author_el := Some (utf8 "kinoman") |}.
Definition block_malformed : block :=
  {| text_el := Some (utf8 "Так себе");
     rating_el := Some (utf8 "n/a");
     date_el := Some (utf8 "12 марта 2023");
     author_el := None |}.
Definition block_eleven : block :=
  {| text_el := Some (utf8 "11 из 10");
     rating_el := Some (utf8 "11");
     date_el := Some (utf8 "01.04.2023");
     author_el := Some (utf8 "fan") |}.

(** A site with two pages of reviews for the sample movie and an empty
    third page; every other request fails. *)
Definition sample_site (url : list N) : outcome (list block) :=
  if bool_decide (url = sample_movie_url ++ utf8 "reviews/?page=1") then
    Returned [block_ok; block_malformed]
  else if bool_decide (url = sample_movie_url ++ utf8 "reviews/?page=2") then
    Returned [block_eleven]
  else if bool_decide (url = sample_movie_url ++ utf8 "reviews/?page=3") then
    Returned []
  else Raised.

(** A stand-in for the lexicon: the score itself plays no part below. *)
Definition sample_compound (text : list N) : pyfloat := Finite 0.

Definition sample_preprocess : list N -> list N :=
  preprocess_text sample_isspace sample_isword sample_isdigit sample_lower
    sample_stop.

Definition sample_scrape : list N -> Z -> list event * outcome (list review) :=
  scrape_reviews_for_movie sample_float sample_strptime sample_site.

(* ================================================================== *)
(** * The rest of the notebook *)
(* ================================================================== *)

(** ** Cell 4: the list of movies *)

Definition BASE_URL : list N := utf8 "https://www.kinopoisk.ru".

Definition MOVIES_LIST_URL : list N :=
  utf8 "https://www.kinopoisk.ru/lists/movies/2023/".

(** [s.startswith(prefix)]. *)
Fixpoint startswith (prefix s : list N) : bool :=
  match prefix, s with
  | [], _ => true
  | p :: prefix', c :: s' => (c =? p)%N && startswith prefix' s'
  | _ :: _, [] => false
  end.

(** [list(dict.fromkeys(keys))]: the keys in the order in which they first
    occur; [seen] is the dict being filled. *)
Fixpoint fromkeys_from (seen : gset (list N)) (keys : list (list N))
    : list (list N) :=
  match keys with
  | [] => []
  | k :: keys' =>
      if bool_decide (k ∈ seen) then fromkeys_from seen keys'
      else k :: fromkeys_from ({[k]} ∪ seen) keys'
  end.

Definition fromkeys (keys : list (list N)) : list (list N) :=
  fromkeys_from ∅ keys.

Section Listing.

(** [requests.get(page_url, headers=headers)], parsed, then
    [soup.find_all("a", class_="selection-film-item-meta__link")]: for each
    anchor its [a.get("href")], [None] when it has no such attribute;
    unless the request raises. *)
Variable requests_get_links : list N -> outcome (list (option (list N))).

(** [href and href.startswith("/film/")]. *)
Definition is_film_href (href : option (list N)) : bool :=
  match href with
  | Some h => negb (bool_decide (h = [])) && startswith (utf8 "/film/") h
  | None => false
  end.

Definition get_movie_urls_from_page (page_url : list N)
    : outcome (list (list N)) :=
  match requests_get_links page_url with
  | Raised => Raised
  | Returned anchors =>
      Returned
        (fold_left
           (fun movie_links href =>
              if is_film_href href
              then movie_links ++ [BASE_URL ++ default [] href]
              else movie_links)
           anchors [])
  end.

(** [MOVIES_LIST_URL + f"?page={page}"]. *)
Definition list_page_url (page : Z) : list N :=
  MOVIES_LIST_URL ++ utf8 "?page=" ++ str_of_int page.

(** [for page in range(1, 6)]: nothing catches a request that raises. *)
Fixpoint collect_movie_urls (pages : list Z) (movie_urls : list (list N))
    : list event * outcome (list (list N)) :=
  match pages with
  | [] => ([], Returned movie_urls)
  | page :: pages' =>
      let url := list_page_url page in
      match get_movie_urls_from_page url with
      | Raised => ([Get url], Raised)
      | Returned urls_on_page =>
          let rest := collect_movie_urls pages' (movie_urls ++ urls_on_page) in
          (Get url :: Sleep 1 :: fst rest, snd rest)
      end
  end.

(** The loop, then [movie_urls = list(dict.fromkeys(movie_urls))[:110]]. *)
Definition movie_urls_cell : list event * outcome (list (list N)) :=
  let collected := collect_movie_urls (py_range 1 6) [] in
  (fst collected,
   match snd collected with
   | Returned movie_urls => Returned (take 110 (fromkeys movie_urls))
   | Raised => Raised
   end).

End Listing.

(** ** Cell 12: the histogram of ratings *)

(** pandas' missing values in a float column: [None] and NaN. *)
Definition float_isna (x : option pyfloat) : bool :=
  match x with
  | None | Some NaN => true
  | Some _ => false
  end.

(** [ratings = df["rating"].dropna()]. *)
Definition ratings_dropna (df : list review) : list pyfloat :=
  omap (fun r => if float_isna (rating r) then None else rating r) df.

(** [np.arange(0, 11) - 0.5]: eleven edges, ten bins. *)
Definition rating_bin_edges : list Q :=
  map (fun k => inject_Z k - 0.5)%Q (py_range 0 11).

(** The bin [numpy.histogram] counts a value in, for increasing edges:
    bin [i] is [edges[i] <= x < edges[i+1]], the last bin has its right
    edge too, and a value outside the edges is counted nowhere. *)
Fixpoint bin_from (i : nat) (edges : list Q) (x : Q) : option nat :=
  match edges with
  | lo :: edges' =>
      match edges' with
      | [] => None
      | hi :: rest =>
          if Qle_bool lo x && negb (Qle_bool hi x) then Some i
          else
            match rest with
            | [] => if Qle_bool lo x && Qeq_bool x hi then Some i else None
            | _ :: _ => bin_from (S i) edges' x
            end
      end
  | [] => None
  end.

Definition rating_bin (x : pyfloat) : option nat :=
  match x with
  | Finite q => bin_from 0 rating_bin_edges q
  | _ => None
  end.

(** The heights of the ten bars of
    [plt.hist(ratings, bins=np.arange(0, 11) - 0.5)]. *)
Definition rating_histogram (ratings : list pyfloat) : list nat :=
  map (fun i => length (List.filter
                          (fun x => bool_decide (rating_bin x = Some i)) ratings))
      (seq 0 10).

(** ** Cell 14: reviews per month *)

(** [df["review_date"].dt.to_period("M")]: a missing date has no period. *)
Definition year_month (r : review) : option (Z * Z) :=
  (fun d => (year d, month d)) <$> review_date r.

Definition period_ltb (p q : Z * Z) : bool :=
  ((fst p <? fst q) || ((fst p =? fst q) && (snd p <? snd q)))%Z.

(** One more row in period [p]; the groups are kept in the order of their
    periods, as [groupby] sorts them. *)
Fixpoint bump (p : Z * Z) (groups : list (Z * Z * nat)) : list (Z * Z * nat) :=
  match groups with
  | [] => [(p, 1)]
  | (q, n) :: groups' =>
      if bool_decide (p = q) then (q, S n) :: groups'
      else if period_ltb p q then (p, 1) :: groups
      else (q, n) :: bump p groups'
  end.

(** [df.groupby("year_month").size().reset_index(name="count")]: rows
    without a period belong to no group. *)
Definition reviews_per_month (df : list review) : list (Z * Z * nat) :=
  fold_left (fun groups r =>
               match year_month r with
               | Some p => bump p groups
               | None => groups
               end) df [].

(** ** Cell 24: the rows that enter the correlation *)

(** [df_corr = df.dropna(subset=["rating", "sentiment_score"])], a row
    being paired with its sentiment score. *)
Definition dropna_rating_sentiment (score : review -> option pyfloat)
    (df : list review) : list review :=
  List.filter (fun r => negb (float_isna (rating r)) && negb (float_isna (score r))) df.

(** ** Vocabulary for the two plots *)

(** The ratings between the first and the last edge of the histogram. *)
Definition rating_drawn (x : pyfloat) : bool :=
  match x with
  | Finite q => Qle_bool (-0.5) q && Qle_bool q 9.5
  | _ => false
  end.

Definition row_drawn (r : review) : bool :=
  match rating r with
  | Some x => rating_drawn x
  | None => false
  end.

(** The number of rows of [df] whose date is in month [p]. *)
Definition rows_of_month (p : Z * Z) (df : list review) : nat :=
  length (List.filter (fun r => bool_decide (year_month r = Some p)) df).

(** What the groups count for month [p], all its entries taken together. *)
Definition month_count (p : Z * Z) (groups : list (Z * Z * nat)) : nat :=
  list_sum (map snd (List.filter (fun g => bool_decide (fst g = p)) groups)).

Definition periods_increasing (groups : list (Z * Z * nat)) : Prop :=
  StronglySorted (fun a b => period_ltb (fst a) (fst b) = true) groups.

(** ** Sample data for the rest *)

(** A listing page with two film links (one of them twice), a link
    elsewhere and an anchor without [href]. *)
Definition sample_anchors : list (option (list N)) :=
  [Some (utf8 "/film/1234567/"); Some (utf8 "/name/42/"); None;
   Some (utf8 "/film/7654321/"); Some (utf8 "/film/1234567/")].

(** Every listing page shows [sample_anchors]. *)
Definition sample_listing (url : list N) : outcome (list (option (list N))) :=
  Returned sample_anchors.

(** Only the first listing page answers. *)
Definition sample_listing_down (url : list N)
    : outcome (list (option (list N))) :=
  if bool_decide (url = MOVIES_LIST_URL ++ utf8 "?page=1") then
    Returned sample_anchors
  else Raised.

(** A site whose second page of reviews cannot be fetched. *)
Definition sample_site_down (url : list N) : outcome (list block) :=
  if bool_decide (url = sample_movie_url ++ utf8 "reviews/?page=1") then
    Returned [block_ok; block_malformed]
  else Raised.

Definition sample_dated (y m d : Z) (x : option pyfloat) : review :=
  {| movie_id := utf8 "1234567"; review_text := Some (utf8 "Отличный фильм");
     rating := x; review_date := Some {| year := y; month := m; day := d |};
     author := Some (utf8 "kinoman") |}.

(** Four rows: two of March 2023, one of January 2023, one without a date. *)
Definition sample_dated_df : list review :=
  [sample_dated 2023 3 12 (Some (Finite 10)); sample_dated 2023 1 5 (Some (Finite 7));
   sample_dated 2023 3 30 None; sample_valid].

(* ================================================================== *)
(** * String methods: what [strip], [split] and [join] guarantee *)
(* ================================================================== *)

Section PyStrFacts.

Variable isspace : N -> bool.

Lemma lstrip_nil (s : list N) :
  lstrip isspace s = [] <-> forallb isspace s = true.
Proof.
  induction s as [|c s IH]; simpl; [tauto|].
  destruct (isspace c) eqn:Hc; simpl; [exact IH|].
  split; discriminate.
Qed.

Lemma forallb_lstrip (s : list N) :
  forallb isspace (lstrip isspace s) = forallb isspace s.
Proof.
  induction s as [|c s IH]; simpl; [reflexivity|].
  destruct (isspace c) eqn:Hc; simpl; [exact IH|].
  now rewrite Hc.
Qed.

Lemma forallb_rev (f : N -> bool) (s : list N) :
  forallb f (rev s) = forallb f s.
Proof.
  induction s as [|c s IH]; simpl; [reflexivity|].
  rewrite forallb_app, IH. simpl. rewrite andb_true_r. apply andb_comm.
Qed.

(** [s.strip() == ""] exactly when [s] is empty or whitespace only. *)
Lemma strip_nil (s : list N) :
  strip isspace s = [] <-> forallb isspace s = true.
Proof.
  unfold strip, rstrip.
  rewrite <- (forallb_lstrip s), <- (forallb_rev isspace (lstrip isspace s)).
  rewrite <- lstrip_nil.
  split; intros H.
  - apply (f_equal (@rev N)) in H. now rewrite rev_involutive in H.
  - now rewrite H.
Qed.

Lemma strip_nil_bool (s : list N) :
  bool_decide (strip isspace s = []) = forallb isspace s.
Proof.
  destruct (forallb isspace s) eqn:H.
  - apply bool_decide_eq_true, strip_nil, H.
  - apply bool_decide_eq_false. intros E. apply strip_nil in E. congruence.
Qed.

End PyStrFacts.

(* ================================================================== *)
(** * The cleaner (cell 8) *)
(* ================================================================== *)

Section Cleaner.

Variable isspace : N -> bool.

Local Abbreviation same_key k := (fun r : review => bool_decide (key r = k)).

(** The mask of the second step lets a row through exactly when its text
    is not blank. *)
Lemma text_mask_blank (r : review) :
  text_mask isspace r = negb (blank isspace (review_text r)).
Proof.
  unfold text_mask, blank, notna, ne_empty, str_strip.
  destruct (review_text r) as [s|]; simpl; [|reflexivity].
  now rewrite strip_nil_bool.
Qed.

Lemma text_mask_key (r r' : review) :
  key r' = key r -> text_mask isspace r' = text_mask isspace r.
Proof.
  intros H. rewrite !text_mask_blank.
  now replace (review_text r') with (review_text r) by (inversion H; auto).
Qed.

(** *** [drop_duplicates] *)

Lemma drop_duplicates_from_In seen df r :
  In r (drop_duplicates_from seen df) -> In r df /\ key r ∉ seen.
Proof.
  revert seen. induction df as [|r0 df IH]; intros seen; simpl; [tauto|].
  case_bool_decide as Hseen.
  - intros H. apply IH in H. tauto.
  - intros [<-|H]; [tauto|].
    apply IH in H. destruct H as [H1 H2]. split; [tauto|].
    intros Hs. apply H2, elem_of_union. now right.
Qed.

Lemma drop_duplicates_from_NoDup seen df :
  NoDup (map key (drop_duplicates_from seen df)).
Proof.
  revert seen. induction df as [|r0 df IH]; intros seen; simpl.
  - constructor.
  - case_bool_decide as Hseen; [apply IH|].
    simpl. constructor; [|apply IH].
    rewrite list_elem_of_In, in_map_iff. intros (r & Hk & Hr).
    apply drop_duplicates_from_In in Hr. rewrite Hk in Hr.
    apply (proj2 Hr), elem_of_union. left. now apply elem_of_singleton.
Qed.


Lemma find_drop_duplicates_from k seen df :
  k ∉ seen ->
  List.find (same_key k) (drop_duplicates_from seen df) = List.find (same_key k) df.
Proof.
  revert seen. induction df as [|r0 df IH]; intros seen Hk; simpl; [reflexivity|].
  case_bool_decide as Hseen.
  - rewrite IH by assumption.
    case_bool_decide as E; [congruence|reflexivity].
  - simpl. case_bool_decide as E; [reflexivity|].
    apply IH. rewrite elem_of_union, elem_of_singleton. intros [?|?]; congruence.
Qed.

(** *** Filtering a table whose mask only looks at the key *)



Lemma NoDup_map_filter (p : review -> bool) df :
  NoDup (map key df) -> NoDup (map key (List.filter p df)).
Proof.
  induction df as [|r df IH]; simpl; [auto|].
  intros H. apply NoDup_cons in H. destruct H as [Hr Hdf].
  destruct (p r); simpl; [|auto].
  constructor; [|auto].
  rewrite list_elem_of_In, in_map_iff in *. intros (r' & Hk & Hin).
  apply Hr. exists r'. split; [assumption|].
  apply filter_In in Hin. tauto.
Qed.


(** *** When the [.str] accessor raises *)

Lemma str_accessor_ok_spec (df : list review) :
  str_accessor_ok df = true <-> df = [] \/ has_text df.
Proof.
  unfold has_text. destruct df as [|r0 df]; cbn [str_accessor_ok].
  - split; [intros _; now left|reflexivity].
  - rewrite existsb_exists. split.
    + intros (r & Hr & Hn). right. exists r. split; [exact Hr|].
      destruct (review_text r); [discriminate|discriminate Hn].
    + intros [E|(r & Hr & Hn)]; [discriminate E|].
      exists r. split; [exact Hr|]. now destruct (review_text r).
Qed.


Lemma drop_duplicates_nil (df : list review) : drop_duplicates df = [] <-> df = [].
Proof.
  unfold drop_duplicates. destruct df as [|r df]; [tauto|].
  cbn [drop_duplicates_from].
  rewrite bool_decide_eq_false_2 by apply not_elem_of_empty.
  split; discriminate.
Qed.

Lemma has_text_drop_duplicates (df : list review) :
  has_text (drop_duplicates df) <-> has_text df.
Proof.
  unfold has_text, drop_duplicates. split.
  - intros (r & Hr & Hn). exists r. split; [|exact Hn].
    now apply drop_duplicates_from_In in Hr.
  - intros (r & Hr & Hn).
    destruct (List.find (same_key (key r)) df) as [r'|] eqn:Hf.
    + rewrite <- (find_drop_duplicates_from (key r) ∅ df) in Hf
        by apply not_elem_of_empty.
      apply find_some in Hf. destruct Hf as [Hin Hk].
      apply bool_decide_eq_true in Hk. exists r'. split; [exact Hin|].
      replace (review_text r') with (review_text r) by (inversion Hk; auto).
      exact Hn.
    + apply (find_none _ _ Hf) in Hr. now apply bool_decide_eq_false in Hr.
Qed.

Lemma str_accessor_ok_drop_duplicates (df : list review) :
  str_accessor_ok (drop_duplicates df) = str_accessor_ok df.
Proof.
  destruct (str_accessor_ok df) eqn:Hok.
  - apply str_accessor_ok_spec. apply str_accessor_ok_spec in Hok.
    destruct Hok as [->|H]; [now left|right]. now apply has_text_drop_duplicates.
  - destruct (str_accessor_ok (drop_duplicates df)) eqn:Hok'; [|reflexivity].
    apply str_accessor_ok_spec in Hok'.
    assert (Hok'' : str_accessor_ok df = true); [|congruence].
    apply str_accessor_ok_spec. destruct Hok' as [E|H].
    + left. now apply drop_duplicates_nil.
    + right. now apply has_text_drop_duplicates.
Qed.

(** The cell finishes exactly on a table without rows or with a text. *)
Lemma clean_returned (df cleaned : list review) :
  clean isspace df = Returned cleaned <->
  (df = [] \/ has_text df) /\
  cleaned = List.filter (text_mask isspace) (drop_duplicates df).
Proof.
  unfold clean, drop_empty_text. rewrite str_accessor_ok_drop_duplicates.
  rewrite <- str_accessor_ok_spec. destruct (str_accessor_ok df).
  - split; [intros [= <-]; now split|intros [_ ->]; reflexivity].
  - split; [discriminate|intros [H _]; discriminate H].
Qed.


Lemma drop_empty_text_returned (df kept : list review) :
  drop_empty_text isspace df = Returned kept <->
  (df = [] \/ has_text df) /\ kept = List.filter (text_mask isspace) df.
Proof.
  unfold drop_empty_text. rewrite <- str_accessor_ok_spec.
  destruct (str_accessor_ok df).
  - split; [intros [= <-]; now split|intros [_ ->]; reflexivity].
  - split; [discriminate|intros [H _]; discriminate H].
Qed.

(** *** The two steps together *)



End Cleaner.





(** The fixture of the spec: three raw rows, one cleaned row. *)
Example clean_sample_df : clean sample_isspace sample_df = Returned [sample_valid].
Proof. vm_compute. reflexivity. Qed.

(** A table without any text: the cell raises. *)
Example clean_sample_no_text : clean sample_isspace sample_no_text = Raised.
Proof. vm_compute. reflexivity. Qed.

(* ================================================================== *)
(** * [split] and [join] *)
(* ================================================================== *)

Section SplitJoin.

Variable isspace : N -> bool.

Lemma rev_not_nil (s : list N) : s <> [] -> rev s <> [].
Proof.
  intros H E. apply H. apply (f_equal (@rev N)) in E.
  now rewrite rev_involutive in E.
Qed.

Lemma Forall_rev_list (P : N -> Prop) (s : list N) : Forall P s -> Forall P (rev s).
Proof. rewrite !List.Forall_forall. intros H c Hc. apply H, in_rev, Hc. Qed.

Lemma split_from_words (word s : list N) :
  Forall (fun c => isspace c = false) word ->
  Forall (is_word isspace) (split_from isspace word s).
Proof.
  revert word. induction s as [|c s IH]; intros word Hw; simpl.
  - destruct word as [|c0 word]; constructor; [|constructor].
    split; [apply rev_not_nil; discriminate|now apply Forall_rev_list].
  - destruct (isspace c) eqn:Hc.
    + destruct word as [|c0 word]; [apply IH; constructor|].
      constructor; [|apply IH; constructor].
      split; [apply rev_not_nil; discriminate|now apply Forall_rev_list].
    + apply IH. now constructor.
Qed.

(** Every character of a word returned by [split] is a character of the
    text. *)
Lemma split_from_chars (word s : list N) (tok : list N) (c : N) :
  In tok (split_from isspace word s) -> In c tok -> In c word \/ In c s.
Proof.
  revert word. induction s as [|c0 s IH]; intros word; cbn [split_from].
  - destruct word as [|c1 word]; [intros []|].
    intros [<-|[]] Hc. left. now apply in_rev.
  - destruct (isspace c0) eqn:Hc0.
    + destruct word as [|c1 word].
      * intros Ht Hc. destruct (IH [] Ht Hc) as [[]|H]. right. now right.
      * intros [<-|Ht] Hc.
        -- left. now apply in_rev.
        -- destruct (IH [] Ht Hc) as [[]|H]. right. now right.
    + intros Ht Hc. destruct (IH (c0 :: word) Ht Hc) as [[<-|H]|H].
      * right. now left.
      * now left.
      * right. now right.
Qed.

Lemma split_words (s : list N) : Forall (is_word isspace) (split isspace s).
Proof. apply split_from_words. constructor. Qed.

Lemma split_chars (s tok : list N) (c : N) :
  In tok (split isspace s) -> In c tok -> In c s.
Proof. intros Ht Hc. destruct (split_from_chars [] s tok c Ht Hc) as [[]|H]; exact H. Qed.

(** Reading on through characters that are not whitespace. *)
Lemma split_from_app (word tok s : list N) :
  Forall (fun c => isspace c = false) tok ->
  split_from isspace word (tok ++ s) = split_from isspace (rev tok ++ word) s.
Proof.
  revert word. induction tok as [|c tok IH]; intros word Htok; simpl; [reflexivity|].
  apply Forall_cons in Htok. destruct Htok as [Hc Htok].
  rewrite Hc, IH by assumption. now rewrite <- app_assoc.
Qed.

(** [" ".join(words).split() == words]. *)
Lemma split_join (toks : list (list N)) :
  isspace SP = true -> Forall (is_word isspace) toks ->
  split isspace (join [SP] toks) = toks.
Proof.
  intros Hsp. unfold split.
  induction toks as [|tok toks IH]; intros Htoks; [reflexivity|].
  apply Forall_cons in Htoks. destruct Htoks as [[Hne Htok] Htoks].
  destruct toks as [|tok' toks].
  - simpl. rewrite <- (app_nil_r tok) at 1.
    rewrite split_from_app, app_nil_r by assumption. simpl.
    destruct (rev tok) eqn:E; [now apply rev_not_nil in E|].
    now rewrite <- E, rev_involutive.
  - change (join [SP] (tok :: tok' :: toks))
      with (tok ++ SP :: join [SP] (tok' :: toks)).
    rewrite split_from_app, app_nil_r by assumption. simpl. rewrite Hsp.
    destruct (rev tok) eqn:E; [now apply rev_not_nil in E|].
    rewrite <- E, rev_involutive. f_equal. now apply IH.
Qed.

End SplitJoin.

Lemma join_chars (toks : list (list N)) (c : N) :
  In c (join [SP] toks) -> c = SP \/ exists tok, In tok toks /\ In c tok.
Proof.
  induction toks as [|tok toks IH]; simpl; [tauto|].
  destruct toks as [|tok' toks].
  - intros H. right. exists tok. tauto.
  - rewrite in_app_iff. simpl. intros [H|[<-|H]].
    + right. exists tok. tauto.
    + now left.
    + destruct (IH H) as [->|(t & Ht & Hc)]; [now left|].
      right. exists t. tauto.
Qed.

(* ================================================================== *)
(** * Contractions *)
(* ================================================================== *)

Lemma word_matches_length (pattern word : list N) :
  word_matches pattern word = true -> length pattern = length word.
Proof.
  revert word. induction pattern as [|p pattern IH]; intros [|c word]; simpl;
    try discriminate; [reflexivity|].
  intros H. apply andb_true_iff in H. f_equal. apply IH. tauto.
Qed.

(** Each contraction is five or six letters, cut after the third. *)
Lemma contractions_shape :
  Forall (fun ab => length (fst ab) = 3 /\ 2 <= length (snd ab) <= 3) contractions.
Proof. repeat constructor. Qed.

Lemma find_none_all {A : Type} (f : A -> bool) (l : list A) :
  Forall (fun x => f x = false) l -> List.find f l = None.
Proof. induction 1 as [|x l Hx _ IH]; simpl; [reflexivity|]. now rewrite Hx. Qed.

(** A word of fewer than five letters is no contraction. *)
Lemma split_contraction_short (word : list N) :
  length word < 5 -> split_contraction word = [word].
Proof.
  intros Hlen. unfold split_contraction.
  rewrite find_none_all; [reflexivity|].
  eapply List.Forall_impl; [|exact contractions_shape].
  intros [a b] [Ha Hb]. simpl in *.
  destruct (word_matches (a ++ b) word) eqn:E; [|reflexivity].
  apply word_matches_length in E. rewrite length_app in E. lia.
Qed.

(** What [split_contraction] returns: the word itself or its two halves;
    either way pieces that are not empty, are made of the word's
    characters, and are not cut further. *)
Lemma split_contraction_pieces (word piece : list N) :
  word <> [] -> In piece (split_contraction word) ->
  piece <> [] /\ (forall c, In c piece -> In c word)
  /\ split_contraction piece = [piece].
Proof.
  intros Hne. unfold split_contraction at 1.
  destruct (List.find _ contractions) as [[a b]|] eqn:Hfind.
  - apply find_some in Hfind. destruct Hfind as [Hin Hm]. simpl in Hm.
    apply word_matches_length in Hm. rewrite length_app in Hm.
    pose proof contractions_shape as Hshape.
    rewrite List.Forall_forall in Hshape. destruct (Hshape _ Hin) as [Ha Hb].
    simpl in *.
    assert (Hchars : forall c, In c (take (length a) word) \/ In c (drop (length a) word)
                               -> In c word).
    { intros c Hc. rewrite <- (take_drop (length a) word). now apply in_app_iff. }
    intros [<-|[<-|[]]].
    + split; [|split].
      * intros E. apply (f_equal (@length N)) in E. rewrite length_take in E.
        simpl in E. lia.
      * intros c Hc. apply Hchars. now left.
      * apply split_contraction_short. rewrite length_take. lia.
    + split; [|split].
      * intros E. apply (f_equal (@length N)) in E. rewrite length_drop in E.
        simpl in E. lia.
      * intros c Hc. apply Hchars. now right.
      * apply split_contraction_short. rewrite length_drop. lia.
  - intros [<-|[]]. split; [assumption|]. split; [auto|].
    unfold split_contraction. now rewrite Hfind.
Qed.

Lemma flat_map_singletons {A : Type} (f : A -> list A) (l : list A) :
  Forall (fun x => f x = [x]) l -> flat_map f l = l.
Proof. induction 1 as [|x l Hx _ IH]; simpl; [reflexivity|]. now rewrite Hx, IH. Qed.

Lemma filter_all_true {A : Type} (f : A -> bool) (l : list A) :
  Forall (fun x => f x = true) l -> List.filter f l = l.
Proof. induction 1 as [|x l Hx _ IH]; simpl; [reflexivity|]. now rewrite Hx, IH. Qed.

(* ================================================================== *)
(** * The tokenizer (cell 10) *)
(* ================================================================== *)

Section Tokenizer.

Variable isspace isword isdigit : N -> bool.
Variable lower : list N -> list N.
Variable russian_stop : gset (list N).

(** What the proofs use of the Unicode tables: U+0020 is whitespace,
    a decimal digit is a word character, a word character is not
    whitespace. *)
Hypothesis space_isspace : isspace SP = true.
Hypothesis digit_isword : forall c, isdigit c = true -> isword c = true.
Hypothesis word_not_space : forall c, isword c = true -> isspace c = false.

(** What they use of [str.lower]: it leaves alone a string made of blanks
    and of characters it has itself produced.  (Lower-casing is character
    by character except for capital sigma, which it never produces, and no
    character it produces has a different lower case.) *)
Hypothesis lower_fixes_own_output :
  forall t s : list N,
    (forall c, In c s -> c = SP \/ In c (lower t)) -> lower s = s.

Local Abbreviation preprocess :=
  (preprocess_text isspace isword isdigit lower russian_stop).
Local Abbreviation tokens_before_filter text :=
  (word_tokenize isspace (digits_sub isdigit (punct_sub isspace isword (lower text)))).

(** *** The two substitutions *)

Lemma punct_sub_chars (text : list N) (c : N) :
  In c (punct_sub isspace isword text) ->
  (c = SP \/ In c text) /\ isword c || isspace c = true.
Proof using space_isspace.
  unfold punct_sub. rewrite in_map_iff. intros (c0 & E & Hc0).
  destruct (isword c0 || isspace c0) eqn:Hw; subst c.
  - tauto.
  - rewrite space_isspace, orb_true_r. tauto.
Qed.

Lemma punct_sub_fixed (text : list N) :
  Forall (fun c => isword c || isspace c = true) text ->
  punct_sub isspace isword text = text.
Proof.
  unfold punct_sub. induction 1 as [|c text Hc _ IH]; simpl; [reflexivity|].
  now rewrite Hc, IH.
Qed.

Lemma digits_sub_from_chars (in_run : bool) (text : list N) (c : N) :
  In c (digits_sub_from isdigit in_run text) ->
  c = SP \/ (In c text /\ isdigit c = false).
Proof.
  revert in_run. induction text as [|c0 text IH]; intros in_run; simpl; [tauto|].
  destruct (isdigit c0) eqn:Hd.
  - destruct in_run; simpl.
    + intros H. destruct (IH _ H); tauto.
    + intros [<-|H]; [tauto|]. destruct (IH _ H); tauto.
  - intros [<-|H]; [tauto|]. destruct (IH _ H); tauto.
Qed.

Lemma digits_sub_fixed (text : list N) :
  Forall (fun c => isdigit c = false) text -> digits_sub isdigit text = text.
Proof.
  unfold digits_sub. induction 1 as [|c text Hc _ IH]; simpl; [reflexivity|].
  now rewrite Hc, IH.
Qed.

Lemma space_not_digit : isdigit SP = false.
Proof using space_isspace digit_isword word_not_space.
  destruct (isdigit SP) eqn:E; [|reflexivity].
  apply digit_isword, word_not_space in E. congruence.
Qed.

(** *** The tokens *)

(** A token handed to the stop-word filter is a word that is not cut
    further, made of characters of the lower-cased text that are word
    characters and not digits. *)
Lemma tokens_before_filter_spec (text tok : list N) :
  In tok (tokens_before_filter text) ->
  is_word isspace tok /\ split_contraction tok = [tok] /\
  forall c, In c tok -> In c (lower text) /\ isword c = true /\ isdigit c = false.
Proof using space_isspace.
  unfold word_tokenize. rewrite in_flat_map. intros (word & Hword & Hpiece).
  pose proof (split_words isspace (digits_sub isdigit (punct_sub isspace isword (lower text)))) as Hwords.
  rewrite List.Forall_forall in Hwords.
  destruct (Hwords _ Hword) as [Hne Hnosp].
  rewrite List.Forall_forall in Hnosp.
  destruct (split_contraction_pieces word tok Hne Hpiece) as (Htok & Hsub & Hcut).
  assert (Hchar : forall c, In c tok -> isspace c = false /\ In c (lower text)
                                       /\ isword c = true /\ isdigit c = false).
  { intros c Hc. apply Hsub in Hc. pose proof (Hnosp _ Hc) as Hs.
    split; [assumption|].
    apply (split_chars isspace _ _ _ Hword) in Hc.
    apply digits_sub_from_chars in Hc.
    destruct Hc as [->|[Hc Hd]]; [rewrite space_isspace in Hs; discriminate|].
    apply punct_sub_chars in Hc. destruct Hc as [[->|Hc] Hw].
    - rewrite space_isspace in Hs. discriminate.
    - rewrite Hs, orb_false_r in Hw. tauto. }
  split; [split; [assumption|]|split; [assumption|]].
  - apply List.Forall_forall. intros c Hc. now apply Hchar.
  - intros c Hc. now apply Hchar.
Qed.

Lemma preprocess_text_unfold (text : list N) :
  preprocess text
    = join [SP] (List.filter (keep_token russian_stop) (tokens_before_filter text)).
Proof. reflexivity. Qed.

(** Reading the cleaned text back gives the tokens that passed the filter. *)
Lemma tokens_of_preprocess (text : list N) :
  tokens_of isspace (preprocess text)
    = List.filter (keep_token russian_stop) (tokens_before_filter text).
Proof using space_isspace.
  unfold tokens_of, preprocess_text.
  apply split_join; [exact space_isspace|].
  apply List.Forall_forall. intros tok Htok. apply filter_In in Htok.
  destruct Htok as [Htok _]. apply tokens_before_filter_spec in Htok. tauto.
Qed.

(** C4.  Every token of a cleaned text has at least three characters and
    is no stop word; so the tokens of the cleaned "Отличный фильм! 10/10"
    do not include "10" nor any word of one or two letters. *)
Theorem preprocess_text_tokens_kept :
  (forall text tok : list N,
     In tok (tokens_of isspace (preprocess text)) ->
     3 <= length tok /\ tok ∉ russian_stop) /\
  (forall tok : list N,
     In tok (tokens_of isspace (preprocess (utf8 "Отличный фильм! 10/10"))) ->
     tok <> utf8 "10" /\ length tok <> 1 /\ length tok <> 2).
Proof using space_isspace.
  assert (Hall : forall text tok : list N,
             In tok (tokens_of isspace (preprocess text)) ->
             3 <= length tok /\ tok ∉ russian_stop).
  { intros text tok. rewrite tokens_of_preprocess, filter_In.
    unfold keep_token. intros [_ Hkeep].
    apply andb_true_iff in Hkeep. destruct Hkeep as [Hstop Hlen].
    apply Nat.ltb_lt in Hlen. apply negb_true_iff, bool_decide_eq_false in Hstop.
    split; [lia|assumption]. }
  split; [exact Hall|].
  intros tok Htok. apply Hall in Htok. destruct Htok as [Hlen _].
  split; [|lia]. intros ->. vm_compute in Hlen. lia.
Qed.

(** C3.  Tokenizer idempotence: cleaning a cleaned text changes nothing,
    [preprocess_text (preprocess_text t) = preprocess_text t] for every text
    [t].  It holds for every stop-word list, and for all character tables
    and every [str.lower] with the four properties assumed above. *)
Theorem preprocess_text_idempotent (text : list N) :
  preprocess_text isspace isword isdigit lower russian_stop
    (preprocess_text isspace isword isdigit lower russian_stop text)
  = preprocess_text isspace isword isdigit lower russian_stop text.
Proof using space_isspace digit_isword word_not_space lower_fixes_own_output.
  pose proof (tokens_of_preprocess text) as Hread.
  rewrite (preprocess_text_unfold text) in Hread |- *.
  set (tokens := List.filter (keep_token russian_stop) (tokens_before_filter text))
    in Hread |- *.
  assert (Htoks : forall tok, In tok tokens ->
            split_contraction tok = [tok] /\ keep_token russian_stop tok = true /\
            forall c, In c tok -> In c (lower text) /\ isword c = true /\ isdigit c = false).
  { intros tok Htok. apply filter_In in Htok. destruct Htok as [Htok Hkeep].
    apply tokens_before_filter_spec in Htok. tauto. }
  assert (Hchars : forall c, In c (join [SP] tokens) ->
            c = SP \/ (In c (lower text) /\ isword c = true /\ isdigit c = false)).
  { intros c Hc. apply join_chars in Hc. destruct Hc as [->|(tok & Htok & Hc)].
    - now left.
    - right. now apply (Htoks tok Htok). }
  rewrite (preprocess_text_unfold (join [SP] tokens)).
  (* 1) lower *)
  rewrite (lower_fixes_own_output text (join [SP] tokens))
    by (intros c Hc; destruct (Hchars c Hc); tauto).
  (* 2) punctuation *)
  rewrite punct_sub_fixed.
  2:{ apply List.Forall_forall. intros c Hc. destruct (Hchars c Hc) as [->|(_ & Hw & _)].
      - now rewrite space_isspace, orb_true_r.
      - now rewrite Hw. }
  (* 3) digits *)
  rewrite digits_sub_fixed.
  2:{ apply List.Forall_forall. intros c Hc. destruct (Hchars c Hc) as [->|(_ & _ & Hd)].
      - exact space_not_digit.
      - exact Hd. }
  (* 4) the same tokens come back *)
  unfold word_tokenize. unfold tokens_of in Hread. rewrite Hread.
  rewrite flat_map_singletons
    by (apply List.Forall_forall; intros tok Htok; now apply Htoks).
  (* 5) and pass the filter again *)
  rewrite filter_all_true
    by (apply List.Forall_forall; intros tok Htok; now apply Htoks).
  reflexivity.
Qed.

End Tokenizer.

(** The sample tables have what the tokenizer's proofs ask of the
    library. *)
Lemma sample_digit_isword (c : N) : sample_isdigit c = true -> sample_isword c = true.
Proof. unfold sample_isdigit, sample_isword. now intros ->. Qed.

Lemma sample_word_not_space (c : N) : sample_isword c = true -> sample_isspace c = false.
Proof.
  intros Hw. destruct (sample_isspace c) eqn:Hs; [|reflexivity].
  apply existsb_exists in Hs. destruct Hs as (x & Hin & Hx).
  apply N.eqb_eq in Hx. subst x.
  simpl in Hin. repeat (destruct Hin as [<-|Hin]; [discriminate Hw|]).
  destruct Hin.
Qed.

Lemma sample_lower_char_idempotent (c : N) :
  sample_lower_char (sample_lower_char c) = sample_lower_char c.
Proof.
  unfold sample_lower_char, in_range.
  destruct (N.leb_spec 65 c), (N.leb_spec c 90), (N.leb_spec 0x400 c),
    (N.leb_spec c 0x40F), (N.leb_spec 0x410 c), (N.leb_spec c 0x42F);
    cbn [andb]; try lia;
    repeat (match goal with
            | |- context [(?a <=? ?b)%N] => destruct (N.leb_spec a b)
            end; cbn [andb]); try reflexivity; lia.
Qed.

Lemma sample_lower_fixes_own_output (t s : list N) :
  (forall c, In c s -> c = SP \/ In c (sample_lower t)) -> sample_lower s = s.
Proof.
  intros H. unfold sample_lower. rewrite <- (map_id s) at 2.
  apply map_ext_in. intros c Hc. destruct (H c Hc) as [->|Hin]; [reflexivity|].
  apply in_map_iff in Hin. destruct Hin as (c0 & <- & _).
  apply sample_lower_char_idempotent.
Qed.

Lemma preprocess_text_tokens_kept_witness :
  sample_isspace SP = true /\
  forall tok : list N,
    In tok (tokens_of sample_isspace (sample_preprocess (utf8 "Отличный фильм! 10/10"))) ->
    tok <> utf8 "10" /\ length tok <> 1 /\ length tok <> 2.
Proof.
  split; [reflexivity|].
  exact (proj2 (preprocess_text_tokens_kept sample_isspace sample_isword
                  sample_isdigit sample_lower sample_stop eq_refl)).
Defined.

Lemma preprocess_text_idempotent_witness :
  sample_preprocess (sample_preprocess (utf8 "I cannot, gonna Wanna"))
    = sample_preprocess (utf8 "I cannot, gonna Wanna").
Proof.
  exact (preprocess_text_idempotent sample_isspace sample_isword sample_isdigit
           sample_lower sample_stop eq_refl sample_digit_isword
           sample_word_not_space sample_lower_fixes_own_output
           (utf8 "I cannot, gonna Wanna")).
Defined.

(** The example of the spec, run on the sample tables. *)
Example preprocess_sample :
  sample_preprocess (utf8 "Отличный фильм! 10/10") = utf8 "отличный фильм".
Proof. vm_compute. reflexivity. Qed.

Example preprocess_contractions :
  sample_preprocess (utf8 "I cannot, gonna Wanna") = utf8 "can not gon wan".
Proof. vm_compute. reflexivity. Qed.

(* ================================================================== *)
(** * [range] *)
(* ================================================================== *)

Lemma py_range_nil (lo hi : Z) : (hi <= lo)%Z -> py_range lo hi = [].
Proof. intros H. unfold py_range. now replace (Z.to_nat (hi - lo)) with 0%nat by lia. Qed.

Lemma py_range_cons (lo hi : Z) :
  (lo < hi)%Z -> py_range lo hi = lo :: py_range (lo + 1) hi.
Proof.
  intros H. unfold py_range.
  replace (Z.to_nat (hi - lo)) with (S (Z.to_nat (hi - (lo + 1)))) by lia.
  cbn [seq map]. f_equal; [lia|].
  rewrite <- seq_shift, map_map. apply map_ext. intros i. lia.
Qed.

Lemma py_range_length (lo hi : Z) : length (py_range lo hi) = Z.to_nat (hi - lo).
Proof. unfold py_range. now rewrite length_map, length_seq. Qed.

Lemma py_range_In (lo hi i : Z) : In i (py_range lo hi) <-> (lo <= i < hi)%Z.
Proof.
  unfold py_range. rewrite in_map_iff. split.
  - intros (n & <- & Hn). apply in_seq in Hn. lia.
  - intros H. exists (Z.to_nat (i - lo)). split; [lia|]. apply in_seq. lia.
Qed.

Lemma py_range_app (lo mid hi : Z) :
  (lo <= mid <= hi)%Z -> py_range lo hi = py_range lo mid ++ py_range mid hi.
Proof.
  intros H. remember (Z.to_nat (mid - lo)) as n eqn:Hn.
  revert lo H Hn. induction n as [|n IH]; intros lo H Hn.
  - replace mid with lo by lia. now rewrite (py_range_nil lo lo) by lia.
  - rewrite (py_range_cons lo hi), (py_range_cons lo mid) by lia.
    cbn [app]. f_equal. apply IH; lia.
Qed.

(* ================================================================== *)
(** * The collector (cell 6) *)
(* ================================================================== *)

Lemma fetched_app (ev1 ev2 : list event) :
  fetched (ev1 ++ ev2) = fetched ev1 ++ fetched ev2.
Proof.
  induction ev1 as [|e ev1 IH]; [reflexivity|].
  destruct e; simpl; now rewrite IH.
Qed.

Section Collector.

Variable py_float : list N -> outcome pyfloat.
Variable strptime_dmy : list N -> outcome date.
Variable requests_get : list N -> outcome (list block).

Local Abbreviation review_of := (review_of_block py_float strptime_dmy).
Local Abbreviation append_all := (append_reviews py_float strptime_dmy).
Local Abbreviation run_pages := (scrape_pages py_float strptime_dmy requests_get).
Local Abbreviation scrape := (scrape_reviews_for_movie py_float strptime_dmy requests_get).
Local Abbreviation reviews_of_page movie_url id :=
  (fun i : Z => map (review_of id)
                  (page_blocks requests_get (reviews_page_url movie_url i))).
Local Abbreviation events_of_page movie_url :=
  (fun i : Z => [Get (reviews_page_url movie_url i); Sleep 0.5]).

(** The inner loop appends one row per block, in order. *)
Lemma append_reviews_spec (id : list N) (blocks : list block) (reviews : list review) :
  append_all id blocks reviews = reviews ++ map (review_of id) blocks.
Proof.
  unfold append_reviews. revert reviews.
  induction blocks as [|b blocks IH]; intros reviews; simpl.
  - now rewrite app_nil_r.
  - now rewrite IH, <- app_assoc.
Qed.

Lemma fetched_events_of_pages (movie_url : list N) (pages : list Z) :
  fetched (flat_map (events_of_page movie_url) pages)
    = map (reviews_page_url movie_url) pages.
Proof. induction pages as [|p pages IH]; simpl; [reflexivity|]. now rewrite IH. Qed.

(** The requests made are those for a prefix of the page numbers. *)
Lemma run_pages_fetched_prefix (movie_url id : list N) (pages : list Z)
    (reviews : list review) :
  exists k : nat,
    fetched (fst (run_pages movie_url id pages reviews))
      = map (reviews_page_url movie_url) (take k pages).
Proof.
  revert reviews. induction pages as [|p pages IH]; intros reviews.
  - exists 0%nat. reflexivity.
  - cbn [scrape_pages].
    destruct (requests_get (reviews_page_url movie_url p)) as [[|b bs]|].
    + exists 1%nat. reflexivity.
    + destruct (IH (append_all id (b :: bs) reviews)) as [k Hk].
      exists (S k). cbn [fst fetched take map]. now rewrite Hk.
    + exists 1%nat. reflexivity.
Qed.

(** The loop up to the first page without review blocks. *)
Lemma run_pages_stop (movie_url id : list N) (before : list Z) (p : Z)
    (after : list Z) (reviews : list review) :
  Forall (fun i => has_reviews requests_get (reviews_page_url movie_url i)) before ->
  requests_get (reviews_page_url movie_url p) = Returned [] ->
  run_pages movie_url id (before ++ p :: after) reviews
    = (flat_map (events_of_page movie_url) before ++ [Get (reviews_page_url movie_url p)],
       Returned (reviews ++ flat_map (reviews_of_page movie_url id) before)).
Proof.
  intros Hbefore Hp. revert reviews.
  induction Hbefore as [|q before (bs & Hq & Hne) _ IH]; intros reviews.
  - cbn [app scrape_pages flat_map]. rewrite Hp. now rewrite app_nil_r.
  - cbn [app scrape_pages flat_map]. unfold page_blocks at 1. rewrite Hq.
    destruct bs as [|b bs]; [contradiction|].
    rewrite IH, append_reviews_spec. cbn [fst snd app]. now rewrite <- app_assoc.
Qed.

(** The loop when every page has review blocks. *)
Lemma run_pages_all (movie_url id : list N) (pages : list Z) (reviews : list review) :
  Forall (fun i => has_reviews requests_get (reviews_page_url movie_url i)) pages ->
  run_pages movie_url id pages reviews
    = (flat_map (events_of_page movie_url) pages,
       Returned (reviews ++ flat_map (reviews_of_page movie_url id) pages)).
Proof.
  intros Hpages. revert reviews.
  induction Hpages as [|q pages (bs & Hq & Hne) _ IH]; intros reviews.
  - cbn [scrape_pages flat_map]. now rewrite app_nil_r.
  - cbn [scrape_pages flat_map]. unfold page_blocks at 1. rewrite Hq.
    destruct bs as [|b bs]; [contradiction|].
    rewrite IH, append_reviews_spec. cbn [fst snd app]. now rewrite <- app_assoc.
Qed.


(** Every row returned was built from a block of one of the pages. *)
Lemma run_pages_rows (movie_url id : list N) (pages : list Z)
    (reviews revs : list review) (r : review) :
  snd (run_pages movie_url id pages reviews) = Returned revs -> In r revs ->
  In r reviews \/
  exists (i : Z) (b : block),
    In i pages /\ In b (page_blocks requests_get (reviews_page_url movie_url i))
    /\ r = review_of id b.
Proof.
  revert reviews. induction pages as [|p pages IH]; intros reviews.
  - cbn. intros [= <-]. tauto.
  - cbn [scrape_pages].
    destruct (requests_get (reviews_page_url movie_url p)) as [[|b bs]|] eqn:Hp.
    + cbn. intros [= <-]. tauto.
    + cbn [snd]. intros H Hr. destruct (IH _ H Hr) as [Hin|(i & b' & Hi & Hb & E)].
      * rewrite append_reviews_spec in Hin. apply in_app_iff in Hin.
        destruct Hin as [Hin|Hin]; [now left|]. right.
        apply in_map_iff in Hin. destruct Hin as (b' & <- & Hb').
        exists p, b'. split; [now left|]. split; [|reflexivity].
        unfold page_blocks. now rewrite Hp.
      * right. exists i, b'. split; [now right|]. tauto.
    + discriminate.
Qed.

(** The batch: every row collected was returned by the scrape of one of
    the movies. *)
Lemma collect_from_rows (idx : Z) (movie_urls : list (list N))
    (all_reviews : list review) (r : review) :
  In r (snd (collect_from py_float strptime_dmy requests_get idx movie_urls all_reviews)) ->
  In r all_reviews \/
  exists (m_url : list N) (revs : list review),
    In m_url movie_urls /\ snd (scrape m_url 3) = Returned revs /\ In r revs.
Proof.
  revert idx all_reviews.
  induction movie_urls as [|m_url movie_urls IH]; intros idx all_reviews.
  - cbn. tauto.
  - cbn [collect_from snd]. intros H. apply IH in H.
    destruct H as [H|(m & revs & Hm & Hrun & Hr)].
    + destruct (snd (scrape m_url 3)) as [revs|] eqn:Hrun; [|now left].
      apply in_app_iff in H. destruct H as [H|H]; [now left|].
      right. exists m_url, revs. split; [now left|]. tauto.
    + right. exists m, revs. split; [now right|]. tauto.
Qed.

(** C8.  [scrape_reviews_for_movie] asks for pages 1, 2, ... in order and
    for at most [max_pages] of them (none when [max_pages] is not
    positive).  When page [j] is the first without review blocks, the pages
    asked for are exactly 1..j, the call returns (it does not raise), and
    what it returns is the rows of pages 1..j-1 in order.  When every page
    up to [max_pages] has review blocks, all of them are asked for and
    their rows returned. *)
Theorem scrape_page_cap_and_early_stop (movie_url : list N) (max_pages : Z) :
  (Z.of_nat (length (fetched (fst (scrape movie_url max_pages))))
     <= Z.max 0 max_pages)%Z /\
  (exists k : nat,
     fetched (fst (scrape movie_url max_pages))
       = map (reviews_page_url movie_url) (take k (py_range 1 (max_pages + 1)))) /\
  (forall j : Z,
     (1 <= j <= max_pages)%Z ->
     (forall i : Z, (1 <= i < j)%Z ->
        has_reviews requests_get (reviews_page_url movie_url i)) ->
     requests_get (reviews_page_url movie_url j) = Returned [] ->
     fetched (fst (scrape movie_url max_pages))
       = map (reviews_page_url movie_url) (py_range 1 (j + 1)) /\
     snd (scrape movie_url max_pages)
       = Returned (flat_map (reviews_of_page movie_url (movie_id_of movie_url))
                     (py_range 1 j))) /\
  ((forall i : Z, (1 <= i <= max_pages)%Z ->
      has_reviews requests_get (reviews_page_url movie_url i)) ->
   fetched (fst (scrape movie_url max_pages))
     = map (reviews_page_url movie_url) (py_range 1 (max_pages + 1)) /\
   snd (scrape movie_url max_pages)
     = Returned (flat_map (reviews_of_page movie_url (movie_id_of movie_url))
                   (py_range 1 (max_pages + 1)))).
Proof.
  unfold scrape_reviews_for_movie.
  destruct (run_pages_fetched_prefix movie_url (movie_id_of movie_url)
              (py_range 1 (max_pages + 1)) []) as [k Hk].
  split; [|split; [|split]].
  - rewrite Hk, length_map, length_take, py_range_length. lia.
  - now exists k.
  - intros j Hj Hbefore Hstop.
    rewrite (py_range_app 1 j (max_pages + 1)), (py_range_cons j (max_pages + 1))
      by lia.
    rewrite run_pages_stop; [|apply List.Forall_forall|exact Hstop].
    + cbn [fst snd app]. split; [|reflexivity].
      rewrite fetched_app, fetched_events_of_pages.
      rewrite (py_range_app 1 j (j + 1)), (py_range_cons j (j + 1)),
        (py_range_nil (j + 1) (j + 1)) by lia.
      now rewrite map_app.
    + intros i Hi. apply py_range_In in Hi. now apply Hbefore.
  - intros Hall. rewrite run_pages_all.
    + cbn [fst snd app]. split; [|reflexivity]. apply fetched_events_of_pages.
    + apply List.Forall_forall. intros i Hi. apply py_range_In in Hi.
      apply Hall. lia.
Qed.

(** What a run of the page loop returns: one row for every block of the
    pages it asked for, in order, after the rows it started with. *)
Lemma run_pages_returned (movie_url id : list N) (pages : list Z)
    (reviews revs : list review) :
  snd (run_pages movie_url id pages reviews) = Returned revs ->
  revs = reviews
         ++ flat_map (fun url => map (review_of id) (page_blocks requests_get url))
              (fetched (fst (run_pages movie_url id pages reviews))).
Proof.
  revert reviews. induction pages as [|p pages IH]; intros reviews.
  - cbn [scrape_pages fst snd fetched flat_map]. intros [= <-].
    now rewrite app_nil_r.
  - cbn [scrape_pages].
    destruct (requests_get (reviews_page_url movie_url p)) as [[|b bs]|] eqn:Hp.
    + cbn [fst snd fetched flat_map]. intros [= <-].
      unfold page_blocks. rewrite Hp. cbn [map app]. now rewrite app_nil_r.
    + cbn [fst snd fetched flat_map]. intros H. rewrite (IH _ H).
      unfold page_blocks at 2. rewrite Hp.
      now rewrite append_reviews_spec, <- app_assoc.
    + discriminate.
Qed.


(** The requests of the batch are those of its movies, movie after movie. *)
Lemma collect_from_fetched_eq (idx : Z) (movie_urls : list (list N))
    (all_reviews : list review) :
  fetched (fst (collect_from py_float strptime_dmy requests_get idx movie_urls
                  all_reviews))
    = flat_map (fun m_url => fetched (fst (scrape m_url 3))) movie_urls.
Proof.
  revert idx all_reviews.
  induction movie_urls as [|m_url movie_urls IH]; intros idx all_reviews.
  - reflexivity.
  - cbn [collect_from fst flat_map]. rewrite !fetched_app. cbn [fetched].
    rewrite IH.
    replace (fetched match snd (scrape m_url 3) with
                     | Returned _ => []
                     | Raised => [PrintError m_url]
                     end) with (@nil (list N))
      by (now destruct (snd (scrape m_url 3))).
    replace (fetched (if (idx mod 10 =? 0)%Z then [PrintProgress idx] else []))
      with (@nil (list N)) by (now destruct (idx mod 10 =? 0)%Z).
    reflexivity.
Qed.


(** C7, as the code has it.  The rating of a row is [None] or the value
    [float] reads from the rating text of its block, whatever that value
    is: the collector checks no range.  So the ratings of the rows returned
    for a movie lie in [0, 10] exactly when the rating texts on the pages
    it asked for do, and the ratings of the rows collected for all movies
    lie in [0, 10] when the rating texts on the pages the batch asked for
    do. *)
Theorem rating_is_parsed_rating_text :
  (forall (id : list N) (b : block) (x : pyfloat),
     rating (review_of id b) = Some x <->
     exists t : list N, rating_el b = Some t /\ py_float t = Returned x) /\
  (forall (movie_url : list N) (max_pages : Z) (revs : list review),
     snd (scrape movie_url max_pages) = Returned revs ->
     (ratings_in_range revs <->
      forall (url : list N) (b : block) (t : list N) (x : pyfloat),
        In url (fetched (fst (scrape movie_url max_pages))) ->
        In b (page_blocks requests_get url) ->
        rating_el b = Some t -> py_float t = Returned x -> rating_in_range x)) /\
  (forall movie_urls : list (list N),
     (forall (url : list N) (b : block) (t : list N) (x : pyfloat),
        In url (fetched (fst (collect_all_reviews py_float strptime_dmy
                                requests_get movie_urls))) ->
        In b (page_blocks requests_get url) ->
        rating_el b = Some t -> py_float t = Returned x -> rating_in_range x) ->
     ratings_in_range
       (snd (collect_all_reviews py_float strptime_dmy requests_get movie_urls))).
Proof.
  assert (Hrow : forall (id : list N) (b : block) (x : pyfloat),
            rating (review_of id b) = Some x <->
            exists t : list N, rating_el b = Some t /\ py_float t = Returned x).
  { intros id b x. unfold review_of_block. cbn [rating].
    destruct (rating_el b) as [t|].
    - destruct (py_float t) as [y|] eqn:Hy; simpl.
      + split.
        * intros [= <-]. now exists t.
        * intros (t' & [= <-] & Hx). congruence.
      + split; [discriminate|]. intros (t' & [= <-] & Hx). congruence.
    - split; [discriminate|]. intros (t' & Ht & _). discriminate. }
  assert (Hmovie : forall (movie_url : list N) (max_pages : Z) (revs : list review),
            snd (scrape movie_url max_pages) = Returned revs ->
            (ratings_in_range revs <->
             forall (url : list N) (b : block) (t : list N) (x : pyfloat),
               In url (fetched (fst (scrape movie_url max_pages))) ->
               In b (page_blocks requests_get url) ->
               rating_el b = Some t -> py_float t = Returned x -> rating_in_range x)).
  { intros movie_url max_pages revs Hrun.
    pose proof (run_pages_returned _ _ _ _ _ Hrun) as Hrevs. cbn [app] in Hrevs.
    split.
    - intros Hrange url b t x Hurl Hb Ht Hx.
      apply (Hrange (review_of (movie_id_of movie_url) b) x).
      + rewrite Hrevs. apply in_flat_map. exists url.
        split; [exact Hurl|]. now apply in_map.
      + apply Hrow. now exists t.
    - intros Hpages r x Hr Hx. rewrite Hrevs in Hr.
      apply in_flat_map in Hr. destruct Hr as (url & Hurl & Hr).
      apply in_map_iff in Hr. destruct Hr as (b & <- & Hb).
      apply Hrow in Hx. destruct Hx as (t & Ht & Hx).
      exact (Hpages url b t x Hurl Hb Ht Hx). }
  split; [exact Hrow|]. split; [exact Hmovie|].
  intros movie_urls Hpages r x Hr Hx. unfold collect_all_reviews in Hr, Hpages.
  rewrite collect_from_fetched_eq in Hpages.
  apply collect_from_rows in Hr. destruct Hr as [[]|(m_url & revs & Hm & Hrun & Hr)].
  refine (proj2 (Hmovie m_url 3%Z revs Hrun) _ r x Hr Hx).
  intros url b t y Hurl. apply Hpages. apply in_flat_map.
  exists m_url. split; [exact Hm|exact Hurl].
Qed.

End Collector.

(** The reading of C7 for every site fails on a page whose rating element
    reads "11": the row is returned with rating 11. *)
Lemma rating_eleven_is_emitted :
  exists revs : list review,
    snd (sample_scrape sample_movie_url 3) = Returned revs /\
    ~ ratings_in_range revs.
Proof.
  eexists. split; [vm_compute; reflexivity|].
  intros H.
  specialize (H (review_of_block sample_float sample_strptime (utf8 "1234567")
                   block_eleven) (Finite 11)).
  assert (Hin : rating_in_range (Finite 11)).
  { apply H; [|vm_compute; reflexivity]. right. right. left. vm_compute. reflexivity. }
  destruct Hin as [_ Hle]. vm_compute in Hle. now apply Hle.
Qed.

Lemma rating_is_parsed_rating_text_witness :
  exists revs : list review,
    snd (sample_scrape sample_movie_url 1) = Returned revs /\
    ratings_in_range revs.
Proof.
  eexists. split; [vm_compute; reflexivity|].
  apply (proj2 (proj1 (proj2 (rating_is_parsed_rating_text sample_float
                                sample_strptime sample_site))
                  sample_movie_url 1%Z _ ltac:(vm_compute; reflexivity))).
  intros url b t x Hurl Hb Ht Hx.
  vm_compute in Hurl. destruct Hurl as [<-|[]].
  vm_compute in Hb. destruct Hb as [<-|[<-|[]]].
  - injection Ht as <-. vm_compute in Hx. injection Hx as <-.
    split; vm_compute; discriminate.
  - injection Ht as <-. vm_compute in Hx. discriminate.
Defined.

Lemma scrape_page_cap_and_early_stop_witness :
  fetched (fst (sample_scrape sample_movie_url 5))
    = map (reviews_page_url sample_movie_url) (py_range 1 (3 + 1)) /\
  snd (sample_scrape sample_movie_url 5)
    = Returned (flat_map
                  (fun i => map (review_of_block sample_float sample_strptime
                                   (movie_id_of sample_movie_url))
                              (page_blocks sample_site
                                 (reviews_page_url sample_movie_url i)))
                  (py_range 1 3)).
Proof.
  apply (proj1 (proj2 (proj2 (scrape_page_cap_and_early_stop sample_float
                                sample_strptime sample_site sample_movie_url 5)))
           3%Z).
  - lia.
  - intros i Hi. assert (i = 1 \/ i = 2)%Z as [-> | ->] by lia.
    + exists [block_ok; block_malformed]. split; [vm_compute; reflexivity|discriminate].
    + exists [block_eleven]. split; [vm_compute; reflexivity|discriminate].
  - vm_compute. reflexivity.
Defined.


(* ================================================================== *)
(** * The sentiment score (cell 18) *)
(* ================================================================== *)

Section Sentiment.

Variable isspace isword isdigit : N -> bool.
Variable lower : list N -> list N.
Variable russian_stop : gset (list N).
Variable polarity_compound : list N -> pyfloat.

Local Abbreviation score := (get_sentiment_score isspace polarity_compound).
Local Abbreviation cleaned := (clean_text isspace isword isdigit lower russian_stop).

Lemma get_sentiment_score_blank (text : option (list N)) :
  score text = None <-> blank isspace text = true.
Proof.
  destruct text as [s|]; simpl; [|tauto].
  rewrite strip_nil_bool.
  destruct s as [|c s]; [simpl; tauto|].
  rewrite bool_decide_eq_false_2 by discriminate. cbn [orb].
  destruct (forallb isspace (c :: s)); split; (reflexivity || discriminate).
Qed.

Lemma filter_none {A : Type} (f : A -> bool) (l : list A) :
  Forall (fun x => f x = false) l -> List.filter f l = [].
Proof. induction 1 as [|x l Hx _ IH]; simpl; [reflexivity|]. now rewrite Hx. Qed.

(** C10.  [get_sentiment_score] returns [None] exactly for a text that is
    [None], empty or whitespace only.  So a row of the cleaned table, whose
    review text is not blank, still gets no score when every token of its
    text is a stop word or shorter than three characters (digits are gone
    before the tokens are formed): its cleaned text is empty. *)
Theorem sentiment_score_none :
  (forall text : option (list N), score text = None <-> blank isspace text = true) /\
  (forall (df rows : list review) (r : review),
     clean isspace df = Returned rows -> In r rows ->
     (forall tok : list N,
        In tok (word_tokenize isspace
                  (digits_sub isdigit
                     (punct_sub isspace isword (lower (default [] (review_text r))))))
        -> tok ∈ russian_stop \/ length tok < 3) ->
     blank isspace (review_text r) = false /\
     cleaned r = [] /\
     sentiment_score isspace isword isdigit lower russian_stop polarity_compound r
       = None).
Proof.
  split; [exact get_sentiment_score_blank|].
  intros df rows r Hrows Hr Htoks.
  assert (Hclean : cleaned r = []).
  { unfold clean_text, preprocess_text. rewrite filter_none; [reflexivity|].
    apply List.Forall_forall. intros tok Htok. unfold keep_token.
    destruct (Htoks tok Htok) as [Hstop|Hshort].
    - now rewrite bool_decide_eq_true_2.
    - apply andb_false_iff. right. apply Nat.ltb_ge. lia. }
  split; [|split; [exact Hclean|]].
  - apply clean_returned in Hrows. destruct Hrows as [_ ->].
    apply filter_In in Hr.
    destruct Hr as [_ Hmask]. rewrite text_mask_blank in Hmask.
    now apply negb_true_iff in Hmask.
  - unfold sentiment_score. rewrite Hclean. reflexivity.
Qed.

End Sentiment.

Lemma sentiment_score_none_witness :
  clean sample_isspace [sample_stopwords_only] = Returned [sample_stopwords_only] /\
  blank sample_isspace (review_text sample_stopwords_only) = false /\
  sentiment_score sample_isspace sample_isword sample_isdigit sample_lower
    sample_stop sample_compound sample_stopwords_only = None.
Proof.
  assert (E : clean sample_isspace [sample_stopwords_only]
                = Returned [sample_stopwords_only]) by (vm_compute; reflexivity).
  split; [exact E|].
  destruct (proj2 (sentiment_score_none sample_isspace sample_isword sample_isdigit
                     sample_lower sample_stop sample_compound)
              [sample_stopwords_only] [sample_stopwords_only]
              sample_stopwords_only E (or_introl eq_refl)) as (Hb & _ & Hs).
  - intros tok Htok. vm_compute in Htok.
    destruct Htok as [<-|[<-|[<-|[]]]].
    + left. apply (bool_decide_unpack _). vm_compute. exact I.
    + left. apply (bool_decide_unpack _). vm_compute. exact I.
    + right. vm_compute. lia.
  - split; assumption.
Defined.

(* ================================================================== *)
(** * The list of movies (cell 4) *)
(* ================================================================== *)

Lemma startswith_app (prefix s : list N) :
  startswith prefix s = true <-> exists rest, s = prefix ++ rest.
Proof.
  revert s. induction prefix as [|p prefix IH]; intros s; simpl.
  - split; [intros _; now exists s|reflexivity].
  - destruct s as [|c s]; [split; [discriminate|intros [rest H]; discriminate]|].
    rewrite andb_true_iff, N.eqb_eq, IH. split.
    + intros [-> [rest ->]]. now exists rest.
    + intros [rest [= -> ->]]. split; [reflexivity|now exists rest].
Qed.

Lemma fromkeys_from_In (seen : gset (list N)) (keys : list (list N)) (k : list N) :
  In k (fromkeys_from seen keys) <-> In k keys /\ k ∉ seen.
Proof.
  revert seen. induction keys as [|k0 keys IH]; intros seen; simpl; [tauto|].
  case_bool_decide as Hseen.
  - rewrite IH. split; [tauto|]. intros [[<-|H] Hk]; [contradiction|tauto].
  - simpl. rewrite IH, elem_of_union, elem_of_singleton. split.
    + intros [<-|[H Hk]]; [tauto|]. split; [tauto|]. intros Hs. apply Hk. now right.
    + intros [[<-|H] Hk]; [now left|].
      destruct (decide (k = k0)) as [->|Hne]; [now left|].
      right. split; [assumption|]. intros [?|?]; congruence.
Qed.

Lemma fromkeys_from_NoDup (seen : gset (list N)) (keys : list (list N)) :
  NoDup (fromkeys_from seen keys).
Proof.
  revert seen. induction keys as [|k0 keys IH]; intros seen; simpl.
  - constructor.
  - case_bool_decide as Hseen; [apply IH|].
    constructor; [|apply IH].
    rewrite list_elem_of_In, fromkeys_from_In, elem_of_union, elem_of_singleton.
    intros [_ H]. apply H. now left.
Qed.

Lemma In_take {A : Type} (n : nat) (l : list A) (x : A) : In x (take n l) -> In x l.
Proof. intros H. rewrite <- (take_drop n l). apply in_app_iff. now left. Qed.

Section ListingFacts.

Variable requests_get_links : list N -> outcome (list (option (list N))).

Local Abbreviation links_of := (get_movie_urls_from_page requests_get_links).
Local Abbreviation collect := (collect_movie_urls requests_get_links).

(** The loop over the anchors keeps the film links, in order. *)
Lemma movie_links_fold (anchors : list (option (list N))) (acc : list (list N)) :
  fold_left
    (fun movie_links href =>
       if is_film_href href then movie_links ++ [BASE_URL ++ default [] href]
       else movie_links)
    anchors acc
  = acc ++ map (fun href => BASE_URL ++ default [] href)
             (List.filter is_film_href anchors).
Proof.
  revert acc. induction anchors as [|href anchors IH]; intros acc; simpl.
  - now rewrite app_nil_r.
  - rewrite IH. destruct (is_film_href href); [|reflexivity].
    simpl. now rewrite <- app_assoc.
Qed.

Lemma film_links_In (anchors : list (option (list N))) (u : list N) :
  In u (map (fun href => BASE_URL ++ default [] href)
          (List.filter is_film_href anchors)) <->
  exists h : list N,
    In (Some h) anchors /\ startswith (utf8 "/film/") h = true /\ u = BASE_URL ++ h.
Proof.
  rewrite in_map_iff. split.
  - intros (href & <- & Hf). apply filter_In in Hf. destruct Hf as [Hin Hfilm].
    destruct href as [h|]; [|discriminate]. unfold is_film_href in Hfilm.
    apply andb_true_iff in Hfilm. exists h. tauto.
  - intros (h & Hin & Hs & ->). exists (Some h). split; [reflexivity|].
    apply filter_In. split; [assumption|]. unfold is_film_href. rewrite Hs.
    destruct h; [discriminate|reflexivity].
Qed.

Lemma film_links_prefix (anchors : list (option (list N))) (u : list N) :
  In u (map (fun href => BASE_URL ++ default [] href)
          (List.filter is_film_href anchors)) ->
  startswith (utf8 "https://www.kinopoisk.ru/film/") u = true.
Proof.
  intros Hu. apply film_links_In in Hu. destruct Hu as (h & _ & Hs & ->).
  apply startswith_app in Hs. destruct Hs as [rest ->].
  apply startswith_app. exists rest.
  rewrite app_assoc. f_equal; vm_compute; reflexivity.
Qed.

Lemma get_movie_urls_from_page_returned (page_url : list N)
    (anchors : list (option (list N))) :
  requests_get_links page_url = Returned anchors ->
  links_of page_url
    = Returned (map (fun href => BASE_URL ++ default [] href)
                  (List.filter is_film_href anchors)).
Proof.
  intros H. unfold get_movie_urls_from_page. rewrite H, movie_links_fold.
  reflexivity.
Qed.

Lemma get_movie_urls_from_page_prefix (page_url : list N)
    (urls : list (list N)) (u : list N) :
  links_of page_url = Returned urls -> In u urls ->
  startswith (utf8 "https://www.kinopoisk.ru/film/") u = true.
Proof.
  destruct (requests_get_links page_url) as [anchors|] eqn:Hpage.
  - rewrite (get_movie_urls_from_page_returned _ _ Hpage). intros [= <-].
    apply film_links_prefix.
  - unfold get_movie_urls_from_page. rewrite Hpage. discriminate.
Qed.

Lemma get_movie_urls_from_page_raised (page_url : list N) :
  requests_get_links page_url = Raised -> links_of page_url = Raised.
Proof. intros H. unfold get_movie_urls_from_page. now rewrite H. Qed.

(** The listing loop: where a collected URL comes from. *)
Lemma collect_movie_urls_In (pages : list Z) (acc urls : list (list N)) (u : list N) :
  snd (collect pages acc) = Returned urls -> In u urls ->
  In u acc \/
  exists (page : Z) (urls_on_page : list (list N)),
    In page pages /\ links_of (list_page_url page) = Returned urls_on_page
    /\ In u urls_on_page.
Proof.
  revert acc. induction pages as [|page pages IH]; intros acc.
  - cbn [collect_movie_urls snd]. intros [= <-]. tauto.
  - cbn [collect_movie_urls].
    destruct (links_of (list_page_url page)) as [urls_on_page|] eqn:Hpage;
      [|discriminate].
    cbn [snd]. intros H Hu. destruct (IH _ H Hu) as [Hacc|(p & l & Hp & Hl & Hin)].
    + apply in_app_iff in Hacc. destruct Hacc as [Hacc|Hacc]; [now left|].
      right. exists page, urls_on_page. split; [now left|]. tauto.
    + right. exists p, l. split; [now right|]. tauto.
Qed.

(** The listing loop, request by request. *)
Lemma collect_movie_urls_all (pages : list Z) (acc : list (list N)) :
  Forall (fun page => requests_get_links (list_page_url page) <> Raised) pages ->
  fetched (fst (collect pages acc)) = map list_page_url pages /\
  exists urls, snd (collect pages acc) = Returned urls.
Proof.
  intros Hpages. revert acc.
  induction Hpages as [|page pages Hpage _ IH]; intros acc.
  - split; [reflexivity|now exists acc].
  - cbn [collect_movie_urls].
    destruct (requests_get_links (list_page_url page)) as [anchors|] eqn:E;
      [|contradiction].
    rewrite (get_movie_urls_from_page_returned _ _ E).
    cbn [fst snd fetched map].
    destruct (IH (acc ++ map (fun href => BASE_URL ++ default [] href)
                          (List.filter is_film_href anchors))) as [Hf Hr].
    split; [now rewrite Hf|exact Hr].
Qed.

Lemma collect_movie_urls_raise (before : list Z) (page : Z) (after : list Z)
    (acc : list (list N)) :
  Forall (fun p => requests_get_links (list_page_url p) <> Raised) before ->
  requests_get_links (list_page_url page) = Raised ->
  fetched (fst (collect (before ++ page :: after) acc))
    = map list_page_url (before ++ [page]) /\
  snd (collect (before ++ page :: after) acc) = Raised.
Proof.
  intros Hbefore Hpage. revert acc.
  induction Hbefore as [|p before Hp _ IH]; intros acc.
  - cbn [app collect_movie_urls].
    rewrite (get_movie_urls_from_page_raised _ Hpage). split; reflexivity.
  - cbn [app collect_movie_urls].
    destruct (requests_get_links (list_page_url p)) as [anchors|] eqn:E;
      [|contradiction].
    rewrite (get_movie_urls_from_page_returned _ _ E).
    cbn [fst snd fetched map].
    destruct (IH (acc ++ map (fun href => BASE_URL ++ default [] href)
                          (List.filter is_film_href anchors))) as [Hf Hr].
    split; [now rewrite Hf|exact Hr].
Qed.

(** X1.  [get_movie_urls_from_page] raises when the request does; else it
    returns, in the order of the page, [BASE_URL + href] for exactly the
    anchors whose [href] starts with "/film/" (an anchor without [href] is
    skipped), so every URL it returns starts with
    "https://www.kinopoisk.ru/film/". *)
Theorem get_movie_urls_from_page_film_links (page_url : list N) :
  match requests_get_links page_url with
  | Raised => get_movie_urls_from_page requests_get_links page_url = Raised
  | Returned anchors =>
      exists urls : list (list N),
        get_movie_urls_from_page requests_get_links page_url = Returned urls /\
        urls = map (fun href => BASE_URL ++ default [] href)
                 (List.filter is_film_href anchors) /\
        (forall u : list N,
           In u urls <->
           exists h : list N,
             In (Some h) anchors /\ startswith (utf8 "/film/") h = true
             /\ u = BASE_URL ++ h) /\
        (forall u : list N,
           In u urls ->
           startswith (utf8 "https://www.kinopoisk.ru/film/") u = true)
  end.
Proof.
  destruct (requests_get_links page_url) as [anchors|] eqn:Hpage.
  - eexists. split; [exact (get_movie_urls_from_page_returned _ _ Hpage)|].
    split; [reflexivity|]. split.
    + apply film_links_In.
    + apply film_links_prefix.
  - unfold get_movie_urls_from_page. now rewrite Hpage.
Qed.

(** The listing loop: every film link of every page is collected. *)
Lemma collect_movie_urls_complete (pages : list Z) (acc urls : list (list N))
    (u : list N) :
  snd (collect pages acc) = Returned urls ->
  (In u acc \/
   exists (page : Z) (urls_on_page : list (list N)),
     In page pages /\ links_of (list_page_url page) = Returned urls_on_page
     /\ In u urls_on_page) ->
  In u urls.
Proof.
  revert acc. induction pages as [|page pages IH]; intros acc.
  - cbn [collect_movie_urls snd]. intros [= <-] [H|(p & l & [] & _)]. exact H.
  - cbn [collect_movie_urls].
    destruct (links_of (list_page_url page)) as [urls_on_page|] eqn:Hpage;
      [|discriminate].
    cbn [snd]. intros H Hu. apply (IH _ H).
    destruct Hu as [Hu|(p & l & [<-|Hp] & Hl & Hin)].
    + left. apply in_app_iff. now left.
    + left. apply in_app_iff. right. congruence.
    + right. exists p, l. tauto.
Qed.

(** X2.  When the cell returns a list of movie URLs, the list has no URL
    twice and at most 110 entries, each found on one of the five listing
    pages and starting with "https://www.kinopoisk.ru/film/"; and a film
    link of those pages is missing from the list only when the list is
    full. *)
Theorem movie_urls_unique_capped (movie_urls : list (list N)) :
  snd (movie_urls_cell requests_get_links) = Returned movie_urls ->
  NoDup movie_urls /\ length movie_urls <= 110 /\
  (forall u : list N,
     In u movie_urls ->
     startswith (utf8 "https://www.kinopoisk.ru/film/") u = true /\
     exists (page : Z) (urls_on_page : list (list N)),
       (1 <= page <= 5)%Z /\
       get_movie_urls_from_page requests_get_links (list_page_url page)
         = Returned urls_on_page /\
       In u urls_on_page) /\
  (forall (page : Z) (urls_on_page : list (list N)) (u : list N),
     (1 <= page <= 5)%Z ->
     get_movie_urls_from_page requests_get_links (list_page_url page)
       = Returned urls_on_page ->
     In u urls_on_page ->
     In u movie_urls \/ length movie_urls = 110).
Proof.
  unfold movie_urls_cell. cbn [snd].
  destruct (snd (collect (py_range 1 6) [])) as [collected|] eqn:Hrun; [|discriminate].
  intros [= <-]. split; [|split; [|split]].
  - eapply sublist_NoDup; [apply fromkeys_from_NoDup|apply sublist_take].
  - rewrite length_take. lia.
  - intros u Hu. apply In_take, fromkeys_from_In in Hu. destruct Hu as [Hu _].
    destruct (collect_movie_urls_In _ _ _ u Hrun Hu) as [[]|(page & l & Hp & Hl & Hin)].
    apply py_range_In in Hp. split; [|exists page, l; split; [lia|tauto]].
    exact (get_movie_urls_from_page_prefix _ _ _ Hl Hin).
  - intros page l u Hp Hl Hin.
    assert (Hu : In u (fromkeys collected)).
    { apply fromkeys_from_In. split; [|apply not_elem_of_empty].
      apply (collect_movie_urls_complete _ _ _ u Hrun). right.
      exists page, l. split; [apply py_range_In; lia|tauto]. }
    destruct (le_lt_dec (length (fromkeys collected)) 110) as [Hle|Hgt].
    + left. now rewrite take_ge by lia.
    + right. rewrite length_take. lia.
Qed.

(** X3.  The cell asks for the listing pages 1 to 5 in order.  When every
    request returns, it asks for all five and returns a list; when the
    request for page [k] is the first to raise, the pages asked for are
    1 to [k] and the cell raises: nothing catches the exception and no list
    is produced. *)
Theorem movie_urls_cell_requests :
  ((forall page : Z, (1 <= page <= 5)%Z ->
      requests_get_links (list_page_url page) <> Raised) ->
   fetched (fst (movie_urls_cell requests_get_links))
     = map list_page_url (py_range 1 6) /\
   exists movie_urls : list (list N),
     snd (movie_urls_cell requests_get_links) = Returned movie_urls) /\
  (forall k : Z,
     (1 <= k <= 5)%Z ->
     (forall page : Z, (1 <= page < k)%Z ->
        requests_get_links (list_page_url page) <> Raised) ->
     requests_get_links (list_page_url k) = Raised ->
     fetched (fst (movie_urls_cell requests_get_links))
       = map list_page_url (py_range 1 (k + 1)) /\
     snd (movie_urls_cell requests_get_links) = Raised).
Proof.
  unfold movie_urls_cell. cbn [fst snd]. split.
  - intros Hall.
    destruct (collect_movie_urls_all (py_range 1 6) []) as [Hf [urls Hr]].
    { apply List.Forall_forall. intros page Hp. apply py_range_In in Hp.
      apply Hall. lia. }
    split; [exact Hf|]. rewrite Hr. eauto.
  - intros k Hk Hbefore Hraise.
    rewrite (py_range_app 1 k 6), (py_range_cons k 6) by lia.
    destruct (collect_movie_urls_raise (py_range 1 k) k (py_range (k + 1) 6) [])
      as [Hf Hr].
    { apply List.Forall_forall. intros page Hp. apply py_range_In in Hp.
      now apply Hbefore. }
    { exact Hraise. }
    rewrite Hf, Hr. split; [|reflexivity].
    rewrite (py_range_app 1 k (k + 1)), (py_range_cons k (k + 1)),
      (py_range_nil (k + 1) (k + 1)) by lia.
    reflexivity.
Qed.

End ListingFacts.

Lemma movie_urls_unique_capped_witness :
  exists movie_urls : list (list N),
    snd (movie_urls_cell sample_listing) = Returned movie_urls /\
    NoDup movie_urls /\ length movie_urls <= 110.
Proof.
  eexists. split; [vm_compute; reflexivity|].
  match goal with
  | |- NoDup ?l /\ _ =>
      assert (Hrun : snd (movie_urls_cell sample_listing) = Returned l)
        by (vm_compute; reflexivity);
      destruct (movie_urls_unique_capped sample_listing l Hrun) as (H1 & H2 & _)
  end.
  split; assumption.
Defined.

Lemma movie_urls_cell_requests_witness :
  fetched (fst (movie_urls_cell sample_listing_down))
    = map list_page_url (py_range 1 (2 + 1)) /\
  snd (movie_urls_cell sample_listing_down) = Raised.
Proof.
  apply (proj2 (movie_urls_cell_requests sample_listing_down) 2%Z).
  - lia.
  - intros page Hp. assert (page = 1%Z) as -> by lia. vm_compute. discriminate.
  - vm_compute. reflexivity.
Defined.

(* ================================================================== *)
(** * Page numbers in URLs *)
(* ================================================================== *)

(** On ASCII bytes the decoder changes nothing. *)
Lemma utf8_decode_ascii (bytes : list N) :
  Forall (fun b => (b < 0x80)%N) bytes -> utf8_decode bytes = bytes.
Proof.
  induction 1 as [|b bytes Hb _ IH]; [reflexivity|].
  cbn [utf8_decode]. apply N.ltb_lt in Hb. now rewrite Hb, IH.
Qed.

Lemma string_of_uint_ascii (d : Decimal.uint) :
  Forall (fun b => (b < 0x80)%N)
    (map N_of_ascii (list_ascii_of_string (NilEmpty.string_of_uint d))).
Proof.
  induction d; cbn [NilEmpty.string_of_uint list_ascii_of_string map];
    constructor; (reflexivity || assumption).
Qed.

Lemma string_of_int_ascii (d : Decimal.int) :
  Forall (fun b => (b < 0x80)%N)
    (map N_of_ascii (list_ascii_of_string (NilZero.string_of_int d))).
Proof.
  assert (Hu : forall u, Forall (fun b => (b < 0x80)%N)
            (map N_of_ascii (list_ascii_of_string (NilZero.string_of_uint u)))).
  { intros u. destruct u; try apply string_of_uint_ascii.
    repeat constructor. }
  destruct d as [u|u]; cbn [NilZero.string_of_int list_ascii_of_string map].
  - apply Hu.
  - constructor; [reflexivity|apply Hu].
Qed.

Lemma map_N_of_ascii_inj (l1 l2 : list ascii) :
  map N_of_ascii l1 = map N_of_ascii l2 -> l1 = l2.
Proof.
  revert l2. induction l1 as [|a l1 IH]; intros [|b l2]; simpl;
    try discriminate; [reflexivity|].
  intros [= Hab H]. f_equal; [|now apply IH].
  rewrite <- (ascii_N_embedding a), <- (ascii_N_embedding b). now rewrite Hab.
Qed.

(** [str(n)] tells integers apart. *)
Lemma str_of_int_inj (n m : Z) : str_of_int n = str_of_int m -> n = m.
Proof.
  unfold str_of_int, utf8. intros H.
  rewrite !utf8_decode_ascii in H by apply string_of_int_ascii.
  apply map_N_of_ascii_inj in H.
  apply (f_equal string_of_list_ascii) in H.
  rewrite !string_of_list_ascii_of_string in H.
  assert (Hnorm : forall z : Z,
            NilZero.int_of_string (NilZero.string_of_int (Z.to_int z))
              = Some (Z.to_int z)).
  { intros z. apply NilZero.isi; destruct z; simpl; try discriminate;
      intros [= E]; now apply Unsigned.to_uint_nonnil in E. }
  apply (f_equal NilZero.int_of_string) in H. rewrite !Hnorm in H.
  injection H as H. apply (f_equal Z.of_int) in H.
  now rewrite !DecimalZ.of_to in H.
Qed.

Lemma reviews_page_url_inj (movie_url : list N) (i j : Z) :
  reviews_page_url movie_url i = reviews_page_url movie_url j -> i = j.
Proof.
  unfold reviews_page_url. intros H.
  apply app_inv_head in H. apply app_inv_head in H. now apply str_of_int_inj.
Qed.

Lemma NoDup_map_injective {A B : Type} (f : A -> B) (l : list A) :
  (forall x y, f x = f y -> x = y) -> NoDup l -> NoDup (map f l).
Proof.
  intros Hinj. induction 1 as [|x l Hx _ IH]; simpl; constructor; [|exact IH].
  rewrite list_elem_of_In, in_map_iff. intros (y & Hy & Hin).
  apply Hinj in Hy. subst y. apply Hx. now apply list_elem_of_In.
Qed.

Lemma py_range_NoDup (lo hi : Z) : NoDup (py_range lo hi).
Proof.
  unfold py_range. apply NoDup_map_injective; [intros x y; lia|].
  apply NoDup_seq.
Qed.

(* ================================================================== *)
(** * More of the collector (cell 6) *)
(* ================================================================== *)

Lemma split_on_from_not_nil (sep : N) (field s : list N) :
  split_on_from sep field s <> [].
Proof.
  revert field. induction s as [|c s IH]; intros field; simpl; [discriminate|].
  destruct (c =? sep)%N; [discriminate|apply IH].
Qed.

Lemma last_cons_not_nil {A : Type} (x d : A) (l : list A) :
  l <> [] -> List.last (x :: l) d = List.last l d.
Proof. destruct l; [contradiction|reflexivity]. Qed.

(** No field of [s.split(sep)] contains the separator. *)
Lemma split_on_from_last_no_sep (sep : N) (field s : list N) :
  ~ In sep field -> ~ In sep (List.last (split_on_from sep field s) []).
Proof.
  revert field. induction s as [|c s IH]; intros field Hf; cbn [split_on_from].
  - cbn [List.last]. now rewrite <- in_rev.
  - destruct (N.eqb_spec c sep) as [->|Hne].
    + rewrite last_cons_not_nil by apply split_on_from_not_nil.
      apply IH. intros [].
    + apply IH. intros [E|H]; [congruence|contradiction].
Qed.

Lemma split_on_from_no_sep (sep : N) (field t : list N) :
  ~ In sep t -> split_on_from sep field t = [rev field ++ t].
Proof.
  revert field. induction t as [|c t IH]; intros field Ht; cbn [split_on_from].
  - now rewrite app_nil_r.
  - destruct (N.eqb_spec c sep) as [->|Hne]; [exfalso; apply Ht; now left|].
    rewrite IH by (intros H; apply Ht; now right).
    cbn [rev]. now rewrite <- app_assoc.
Qed.

(** The last field is what follows the last separator. *)
Lemma split_on_from_last (sep : N) (field s t : list N) :
  ~ In sep t ->
  List.last (split_on_from sep field (s ++ sep :: t)) [] = t.
Proof.
  intros Ht. revert field. induction s as [|c s IH]; intros field;
    cbn [app split_on_from].
  - rewrite N.eqb_refl, split_on_from_no_sep by assumption. reflexivity.
  - destruct (c =? sep)%N; [|apply IH].
    rewrite last_cons_not_nil by apply split_on_from_not_nil. apply IH.
Qed.

Lemma lstrip_replicate (ch : N) (n : nat) (s : list N) :
  lstrip (N.eqb ch) (replicate n ch ++ s) = lstrip (N.eqb ch) s.
Proof. induction n as [|n IH]; [reflexivity|]. cbn. now rewrite N.eqb_refl. Qed.

Lemma rev_replicate (ch : N) (n : nat) : rev (replicate n ch) = replicate n ch.
Proof.
  induction n as [|n IH]; [reflexivity|].
  cbn [replicate rev]. rewrite IH. clear IH.
  induction n as [|n IH]; [reflexivity|]. cbn. now rewrite IH.
Qed.

(** [s.rstrip(ch)] removes the run of [ch] at the end and nothing else. *)
Lemma rstrip_char_replicate (ch c : N) (s : list N) (n : nat) :
  c <> ch -> rstrip_char ch (s ++ c :: replicate n ch) = s ++ [c].
Proof.
  intros Hc. unfold rstrip_char.
  rewrite rev_app_distr. cbn [rev]. rewrite rev_replicate, <- !app_assoc.
  rewrite lstrip_replicate. cbn [app lstrip].
  destruct (N.eqb_spec ch c) as [E|_]; [congruence|].
  cbn [rev]. now rewrite rev_involutive.
Qed.

(** X4.  The movie id never contains a slash.  It is the text after the
    last slash once the slashes at the end of the URL are removed: for a
    URL [prefix/id], followed by any number of slashes, it is [id].  For a
    URL made of slashes only (or empty) it is empty. *)
Theorem movie_id_of_last_segment :
  (forall movie_url : list N, ~ In 47%N (movie_id_of movie_url)) /\
  (forall (prefix id : list N) (n : nat),
     id <> [] -> ~ In 47%N id ->
     movie_id_of (prefix ++ 47%N :: id ++ replicate n 47%N) = id) /\
  (forall movie_url : list N,
     Forall (fun c => c = 47%N) movie_url -> movie_id_of movie_url = []).
Proof.
  unfold movie_id_of, split_on. split; [|split].
  - intros movie_url. apply split_on_from_last_no_sep. intros [].
  - intros prefix id n Hne Hid.
    destruct (exists_last Hne) as (id' & c & ->).
    assert (Hc : c <> 47%N).
    { intros ->. apply Hid, in_app_iff. right. now left. }
    replace (prefix ++ 47%N :: (id' ++ [c]) ++ replicate n 47%N)
      with ((prefix ++ 47%N :: id') ++ c :: replicate n 47%N)
      by (now rewrite <- !app_assoc).
    rewrite rstrip_char_replicate by assumption.
    rewrite <- app_assoc. cbn [app]. now apply split_on_from_last.
  - intros movie_url Hall. unfold rstrip_char.
    assert (Hs : lstrip (N.eqb 47) (rev movie_url) = []).
    { apply lstrip_nil, forallb_forall. intros c Hc. apply in_rev in Hc.
      rewrite List.Forall_forall in Hall. rewrite (Hall c Hc). reflexivity. }
    rewrite Hs. reflexivity.
Qed.

Lemma movie_id_of_last_segment_witness :
  movie_id_of sample_movie_url = utf8 "1234567".
Proof.
  assert (Hne : utf8 "1234567" <> []) by discriminate.
  assert (Hid : ~ In 47%N (utf8 "1234567")).
  { vm_compute. intros H. repeat (destruct H as [H|H]; [discriminate H|]). exact H. }
  exact (proj1 (proj2 movie_id_of_last_segment)
           (utf8 "https://www.kinopoisk.ru/film") (utf8 "1234567") 1 Hne Hid).
Defined.

Section CollectorMore.

Variable py_float : list N -> outcome pyfloat.
Variable strptime_dmy : list N -> outcome date.
Variable requests_get : list N -> outcome (list block).

Local Abbreviation review_of := (review_of_block py_float strptime_dmy).
Local Abbreviation run_pages := (scrape_pages py_float strptime_dmy requests_get).
Local Abbreviation scrape := (scrape_reviews_for_movie py_float strptime_dmy requests_get).
Local Abbreviation collect_from' := (collect_from py_float strptime_dmy requests_get).
Local Abbreviation collect_all := (collect_all_reviews py_float strptime_dmy requests_get).
Local Abbreviation rows_or_nothing :=
  (fun m_url : list N =>
     match snd (scrape m_url 3) with
     | Returned revs => revs
     | Raised => []
     end).

(** A run of the page loop only requests pages and sleeps. *)
Lemma run_pages_events (movie_url id : list N) (pages : list Z)
    (reviews : list review) (e : event) :
  In e (fst (run_pages movie_url id pages reviews)) ->
  (exists url, e = Get url) \/ e = Sleep 0.5.
Proof.
  revert reviews. induction pages as [|p pages IH]; intros reviews.
  - intros [].
  - cbn [scrape_pages].
    destruct (requests_get (reviews_page_url movie_url p)) as [[|b bs]|].
    + intros [<-|[]]. left. eauto.
    + cbn [fst]. intros [<-|[<-|H]]; [left; eauto|now right|]. exact (IH _ H).
    + intros [<-|[]]. left. eauto.
Qed.

(** The loop up to the first request that raises. *)
Lemma run_pages_raise_at (movie_url id : list N) (before : list Z) (p : Z)
    (after : list Z) (reviews : list review) :
  Forall (fun i => has_reviews requests_get (reviews_page_url movie_url i)) before ->
  requests_get (reviews_page_url movie_url p) = Raised ->
  fetched (fst (run_pages movie_url id (before ++ p :: after) reviews))
    = map (reviews_page_url movie_url) (before ++ [p]) /\
  snd (run_pages movie_url id (before ++ p :: after) reviews) = Raised.
Proof.
  intros Hbefore Hp. revert reviews.
  induction Hbefore as [|q before (bs & Hq & Hne) _ IH]; intros reviews.
  - cbn [app scrape_pages]. rewrite Hp. split; reflexivity.
  - cbn [app scrape_pages]. rewrite Hq.
    destruct bs as [|b bs]; [contradiction|].
    cbn [fst snd fetched map].
    destruct (IH (append_reviews py_float strptime_dmy id (b :: bs) reviews))
      as [Hf Hr].
    split; [now rewrite Hf|exact Hr].
Qed.

Lemma scrape_fetched_le (movie_url : list N) (max_pages : Z) :
  length (fetched (fst (scrape movie_url max_pages))) <= Z.to_nat max_pages.
Proof.
  unfold scrape_reviews_for_movie.
  destruct (run_pages_fetched_prefix py_float strptime_dmy requests_get movie_url
              (movie_id_of movie_url) (py_range 1 (max_pages + 1)) []) as [k Hk].
  rewrite Hk, length_map, length_take, py_range_length. lia.
Qed.

(** The batch loop, with the rows found so far. *)
Lemma collect_from_rows_eq (idx : Z) (movie_urls : list (list N))
    (all_reviews : list review) :
  snd (collect_from' idx movie_urls all_reviews)
    = all_reviews ++ flat_map rows_or_nothing movie_urls.
Proof.
  revert idx all_reviews.
  induction movie_urls as [|m_url movie_urls IH]; intros idx all_reviews.
  - cbn [collect_from snd flat_map]. now rewrite app_nil_r.
  - cbn [collect_from snd flat_map]. rewrite IH.
    destruct (snd (scrape m_url 3)) as [revs|].
    + now rewrite <- app_assoc.
    + reflexivity.
Qed.

Lemma collect_from_fetched (idx : Z) (movie_urls : list (list N))
    (all_reviews : list review) :
  length (fetched (fst (collect_from' idx movie_urls all_reviews)))
    <= 3 * length movie_urls.
Proof.
  revert idx all_reviews.
  induction movie_urls as [|m_url movie_urls IH]; intros idx all_reviews.
  - cbn. lia.
  - cbn [collect_from fst]. rewrite !fetched_app, !length_app.
    pose proof (scrape_fetched_le m_url 3) as Hm.
    match goal with
    | |- context [collect_from' ?i movie_urls ?a] => specialize (IH i a)
    end.
    assert (Hcaught : forall m, fetched
              match snd (scrape m 3) with
              | Returned _ => []
              | Raised => [PrintError m]
              end = []) by (intros m; now destruct (snd (scrape m 3))).
    assert (Hprog : forall i : Z, fetched
              (if (i mod 10 =? 0)%Z then [PrintProgress i] else []) = [])
      by (intros i; now destruct (i mod 10 =? 0)%Z).
    rewrite Hcaught, Hprog. cbn [fetched length] in *. lia.
Qed.

(** What the batch prints. *)
Lemma collect_from_prints (idx : Z) (movie_urls : list (list N))
    (all_reviews : list review) :
  (forall m_url : list N,
     In (PrintError m_url) (fst (collect_from' idx movie_urls all_reviews)) <->
     In m_url movie_urls /\ snd (scrape m_url 3) = Raised) /\
  (forall i : Z,
     In (PrintProgress i) (fst (collect_from' idx movie_urls all_reviews)) <->
     (idx <= i < idx + Z.of_nat (length movie_urls))%Z /\ (i mod 10 = 0)%Z).
Proof.
  revert idx all_reviews.
  induction movie_urls as [|m_url movie_urls IH]; intros idx all_reviews.
  - cbn [collect_from fst length]. split; intros x; split;
      [intros []|intros [[] _]|intros []|lia].
  - cbn [collect_from fst]. match goal with
    | |- context [collect_from' ?i movie_urls ?a] =>
        destruct (IH i a) as [IHe IHp]
    end.
    assert (Hscrape : forall e, In e (fst (scrape m_url 3)) ->
              (exists url, e = Get url) \/ e = Sleep 0.5)
      by (intros e; apply run_pages_events).
    split.
    + intros m. rewrite !in_app_iff. cbn [In]. rewrite IHe. split.
      * intros [H|[H|[H|[H|H]]]].
        -- destruct (Hscrape _ H) as [[url E]|E]; discriminate.
        -- destruct (snd (scrape m_url 3)) eqn:Hr; [destruct H|].
           destruct H as [[= <-]|[]]. split; [now left|assumption].
        -- destruct (idx mod 10 =? 0)%Z; [destruct H as [H|[]]; discriminate|destruct H].
        -- discriminate.
        -- split; [now right|tauto].
      * intros [[<-|Hm] Hr].
        -- right. left. rewrite Hr. now left.
        -- right. right. right. right. tauto.
    + intros i. rewrite !in_app_iff. cbn [In]. rewrite IHp.
      rewrite length_cons, Nat2Z.inj_succ. split.
      * intros [H|[H|[H|[H|H]]]].
        -- destruct (Hscrape _ H) as [[url E]|E]; discriminate.
        -- destruct (snd (scrape m_url 3)); [destruct H|].
           destruct H as [H|[]]; discriminate.
        -- destruct (Z.eqb_spec (idx mod 10) 0) as [E|E]; [|destruct H].
           destruct H as [[= <-]|[]]. lia.
        -- discriminate.
        -- lia.
      * intros [Hi Hmod]. destruct (Z.eq_dec i idx) as [->|Hne].
        -- right. right. left. apply Z.eqb_eq in Hmod. rewrite Hmod. now left.
        -- right. right. right. right. lia.
Qed.

(** X5.  Every row the collector builds carries the id of the movie whose
    pages it was read from, and has a text and an author that are strings,
    never [None] (a missing element gives the empty string); this holds
    for the rows of one movie and for the rows of the whole batch. *)
Theorem collected_rows_shape :
  (forall (movie_url : list N) (max_pages : Z) (revs : list review) (r : review),
     snd (scrape_reviews_for_movie py_float strptime_dmy requests_get
            movie_url max_pages) = Returned revs ->
     In r revs ->
     movie_id r = movie_id_of movie_url /\
     review_text r <> None /\ author r <> None) /\
  (forall (movie_urls : list (list N)) (r : review),
     In r (snd (collect_all_reviews py_float strptime_dmy requests_get movie_urls)) ->
     exists m_url : list N,
       In m_url movie_urls /\ movie_id r = movie_id_of m_url /\
       review_text r <> None /\ author r <> None).
Proof.
  assert (Hmovie : forall (movie_url : list N) (max_pages : Z)
                          (revs : list review) (r : review),
            snd (scrape movie_url max_pages) = Returned revs -> In r revs ->
            movie_id r = movie_id_of movie_url /\
            review_text r <> None /\ author r <> None).
  { intros movie_url max_pages revs r Hrun Hr.
    destruct (run_pages_rows py_float strptime_dmy requests_get movie_url
                _ _ _ _ r Hrun Hr) as [[]|(i & b & _ & _ & ->)].
    unfold review_of_block. cbn [movie_id review_text author].
    split; [reflexivity|]. split; discriminate. }
  split; [exact Hmovie|].
  intros movie_urls r Hr. unfold collect_all_reviews in Hr.
  rewrite collect_from_rows_eq in Hr. cbn [app] in Hr.
  apply in_flat_map in Hr. destruct Hr as (m_url & Hm & Hr).
  exists m_url. split; [assumption|].
  destruct (snd (scrape m_url 3)) as [revs|] eqn:Hrun; [|destruct Hr].
  exact (Hmovie m_url 3%Z revs r Hrun Hr).
Qed.

(** X6.  The batch returns, in the order of the movies, the rows of every
    movie whose scrape returned; a movie whose scrape raised contributes no
    row and does not stop the batch. *)
Theorem collect_all_reviews_rows (movie_urls : list (list N)) :
  snd (collect_all_reviews py_float strptime_dmy requests_get movie_urls)
    = flat_map
        (fun m_url : list N =>
           match snd (scrape_reviews_for_movie py_float strptime_dmy
                        requests_get m_url 3) with
           | Returned revs => revs
           | Raised => []
           end)
        movie_urls.
Proof. unfold collect_all_reviews. now rewrite collect_from_rows_eq. Qed.

(** X7.  The requests of the batch are those of its movies, movie after
    movie, and for each movie they are the pages 1 to [k] of that movie
    for some [k] up to three: at most three pages per movie, and so at
    most three times the number of movies in all.  The batch prints an
    error for exactly the movies whose scrape raised, and the progress
    after exactly the movies numbered 10, 20, 30, ... *)
Theorem collect_all_reviews_events (movie_urls : list (list N)) :
  fetched (fst (collect_all_reviews py_float strptime_dmy requests_get movie_urls))
    = flat_map
        (fun m_url : list N =>
           fetched (fst (scrape_reviews_for_movie py_float strptime_dmy
                           requests_get m_url 3)))
        movie_urls /\
  (forall m_url : list N,
     exists k : nat,
       k <= 3 /\
       fetched (fst (scrape_reviews_for_movie py_float strptime_dmy requests_get
                       m_url 3))
         = map (reviews_page_url m_url) (take k (py_range 1 4))) /\
  length (fetched (fst (collect_all_reviews py_float strptime_dmy requests_get
                          movie_urls)))
    <= 3 * length movie_urls /\
  (forall m_url : list N,
     In (PrintError m_url)
        (fst (collect_all_reviews py_float strptime_dmy requests_get movie_urls)) <->
     In m_url movie_urls /\
     snd (scrape_reviews_for_movie py_float strptime_dmy requests_get m_url 3)
       = Raised) /\
  (forall idx : Z,
     In (PrintProgress idx)
        (fst (collect_all_reviews py_float strptime_dmy requests_get movie_urls)) <->
     (1 <= idx <= Z.of_nat (length movie_urls))%Z /\ (idx mod 10 = 0)%Z).
Proof.
  unfold collect_all_reviews.
  destruct (collect_from_prints 1 movie_urls []) as [He Hp].
  split; [apply collect_from_fetched_eq|]. split.
  { intros m_url. unfold scrape_reviews_for_movie.
    destruct (run_pages_fetched_prefix py_float strptime_dmy requests_get m_url
                (movie_id_of m_url) (py_range 1 (3 + 1)) []) as [k Hk].
    change (3 + 1)%Z with 4%Z in *.
    destruct (le_lt_dec k 3) as [Hle|Hgt].
    - exists k. split; [exact Hle|exact Hk].
    - exists 3. split; [lia|]. rewrite Hk.
      rewrite !take_ge by (rewrite py_range_length; lia). reflexivity. }
  split; [apply collect_from_fetched|]. split; [exact He|].
  intros idx. rewrite Hp. lia.
Qed.

(** X8.  When the request for page [j] raises after pages with reviews,
    [scrape_reviews_for_movie] raises too: the pages asked for are 1 to
    [j], and the rows read from the earlier pages are not returned. *)
Theorem scrape_raises_with_request (movie_url : list N) (max_pages j : Z) :
  (1 <= j <= max_pages)%Z ->
  (forall i : Z, (1 <= i < j)%Z ->
     has_reviews requests_get (reviews_page_url movie_url i)) ->
  requests_get (reviews_page_url movie_url j) = Raised ->
  snd (scrape_reviews_for_movie py_float strptime_dmy requests_get
         movie_url max_pages) = Raised /\
  fetched (fst (scrape_reviews_for_movie py_float strptime_dmy requests_get
                  movie_url max_pages))
    = map (reviews_page_url movie_url) (py_range 1 (j + 1)).
Proof.
  intros Hj Hbefore Hraise. unfold scrape_reviews_for_movie.
  rewrite (py_range_app 1 j (max_pages + 1)), (py_range_cons j (max_pages + 1))
    by lia.
  destruct (run_pages_raise_at movie_url (movie_id_of movie_url) (py_range 1 j) j
              (py_range (j + 1) (max_pages + 1)) []) as [Hf Hr].
  { apply List.Forall_forall. intros i Hi. apply py_range_In in Hi.
    now apply Hbefore. }
  { exact Hraise. }
  split; [exact Hr|]. rewrite Hf.
  rewrite (py_range_app 1 j (j + 1)), (py_range_cons j (j + 1)),
    (py_range_nil (j + 1) (j + 1)) by lia.
  reflexivity.
Qed.

(** X9.  [scrape_reviews_for_movie] never asks for the same page twice:
    the URLs it requests are pairwise different. *)
Theorem scrape_requests_distinct (movie_url : list N) (max_pages : Z) :
  NoDup (fetched (fst (scrape_reviews_for_movie py_float strptime_dmy requests_get
                         movie_url max_pages))).
Proof.
  unfold scrape_reviews_for_movie.
  destruct (run_pages_fetched_prefix py_float strptime_dmy requests_get movie_url
              (movie_id_of movie_url) (py_range 1 (max_pages + 1)) []) as [k Hk].
  rewrite Hk. apply NoDup_map_injective; [apply reviews_page_url_inj|].
  eapply sublist_NoDup; [apply py_range_NoDup|apply sublist_take].
Qed.

End CollectorMore.

Lemma scrape_raises_with_request_witness :
  snd (scrape_reviews_for_movie sample_float sample_strptime sample_site_down
         sample_movie_url 3) = Raised /\
  fetched (fst (scrape_reviews_for_movie sample_float sample_strptime
                  sample_site_down sample_movie_url 3))
    = map (reviews_page_url sample_movie_url) (py_range 1 (2 + 1)).
Proof.
  apply (scrape_raises_with_request sample_float sample_strptime sample_site_down
           sample_movie_url 3 2).
  - lia.
  - intros i Hi. assert (i = 1%Z) as -> by lia.
    exists [block_ok; block_malformed]. split; [vm_compute; reflexivity|discriminate].
  - vm_compute. reflexivity.
Defined.

(* ================================================================== *)
(** * More of the cleaner (cell 8) *)
(* ================================================================== *)

(** A table without two rows of one key is left alone. *)
Lemma drop_duplicates_from_fixed (seen : gset (option (list N) * option (list N)))
    (df : list review) :
  NoDup (map key df) -> (forall r, In r df -> key r ∉ seen) ->
  drop_duplicates_from seen df = df.
Proof.
  revert seen. induction df as [|r df IH]; intros seen Hnd Hseen; [reflexivity|].
  cbn [map] in Hnd. apply NoDup_cons in Hnd. destruct Hnd as [Hr Hnd].
  cbn [drop_duplicates_from].
  rewrite bool_decide_eq_false_2 by (apply Hseen; now left).
  f_equal. apply IH; [assumption|].
  intros r' Hr'. rewrite elem_of_union, elem_of_singleton. intros [E|Hs].
  - apply Hr. rewrite <- E. apply list_elem_of_In, in_map, Hr'.
  - apply (Hseen r'); [now right|assumption].
Qed.

Lemma filter_filter_same {A : Type} (f : A -> bool) (l : list A) :
  List.filter f (List.filter f l) = List.filter f l.
Proof.
  induction l as [|x l IH]; [reflexivity|].
  cbn [List.filter]. destruct (f x) eqn:Hx; [|exact IH].
  cbn [List.filter]. now rewrite Hx, IH.
Qed.

Lemma drop_duplicates_from_sublist (seen : gset (option (list N) * option (list N)))
    (df : list review) :
  drop_duplicates_from seen df `sublist_of` df.
Proof.
  revert seen. induction df as [|r df IH]; intros seen; cbn [drop_duplicates_from].
  - constructor.
  - case_bool_decide; [apply sublist_cons|apply sublist_skip]; apply IH.
Qed.

Lemma filter_sublist {A : Type} (f : A -> bool) (l : list A) :
  List.filter f l `sublist_of` l.
Proof.
  induction l as [|x l IH]; cbn [List.filter]; [constructor|].
  destruct (f x); [apply sublist_skip|apply sublist_cons]; exact IH.
Qed.

Section CleanerMore.

Variable isspace : N -> bool.

(** Dropping duplicates before or after a filter that only looks at the
    key: the tables of keys seen so far may differ on the keys the filter
    rejects. *)
Lemma drop_duplicates_from_filter
    (seen seen' : gset (option (list N) * option (list N))) (df : list review) :
  (forall r : review, text_mask isspace r = true ->
     (key r ∈ seen <-> key r ∈ seen')) ->
  drop_duplicates_from seen (List.filter (text_mask isspace) df)
    = List.filter (text_mask isspace) (drop_duplicates_from seen' df).
Proof.
  revert seen seen'. induction df as [|r df IH]; intros seen seen' Hagree;
    [reflexivity|].
  cbn [List.filter drop_duplicates_from].
  destruct (text_mask isspace r) eqn:Hm.
  - cbn [drop_duplicates_from]. pose proof (Hagree r Hm) as Hr.
    case_bool_decide as Hs; case_bool_decide as Hs'; try tauto.
    + now apply IH.
    + cbn [List.filter]. rewrite Hm. f_equal. apply IH.
      intros r' Hm'. rewrite !elem_of_union, !elem_of_singleton.
      specialize (Hagree r' Hm'). tauto.
  - case_bool_decide as Hs'.
    + now apply IH.
    + cbn [List.filter]. rewrite Hm. apply IH.
      intros r' Hm'. rewrite elem_of_union, elem_of_singleton.
      specialize (Hagree r' Hm'). split; [tauto|].
      intros [E|H]; [|tauto].
      rewrite (text_mask_key isspace r r' E) in Hm'. congruence.
Qed.

(** What the filter returns is empty or has a text in every row. *)
Lemma filter_text_mask_ok (df : list review) :
  List.filter (text_mask isspace) df = [] \/
  has_text (List.filter (text_mask isspace) df).
Proof.
  destruct (List.filter (text_mask isspace) df) as [|r kept] eqn:E; [now left|right].
  exists r. split; [now left|].
  assert (Hr : In r (List.filter (text_mask isspace) df)) by (rewrite E; now left).
  apply filter_In in Hr. destruct Hr as [_ Hm]. unfold text_mask in Hm.
  destruct (review_text r); [discriminate|discriminate Hm].
Qed.

(** X10.  Cleaning is idempotent, and so is each of its two steps: run on
    a table it produced, the cell does not raise and returns that table
    unchanged. *)
Theorem clean_idempotent :
  (forall df cleaned : list review,
     clean isspace df = Returned cleaned ->
     clean isspace cleaned = Returned cleaned) /\
  (forall df : list review,
     drop_duplicates (drop_duplicates df) = drop_duplicates df) /\
  (forall df kept : list review,
     drop_empty_text isspace df = Returned kept ->
     drop_empty_text isspace kept = Returned kept).
Proof.
  split; [|split].
  - intros df cleaned Hclean. apply clean_returned in Hclean.
    destruct Hclean as [_ ->]. apply clean_returned. split.
    + apply filter_text_mask_ok.
    + unfold drop_duplicates.
      rewrite (drop_duplicates_from_fixed ∅
                 (List.filter (text_mask isspace) (drop_duplicates_from ∅ df))).
      * symmetry. apply filter_filter_same.
      * apply NoDup_map_filter, drop_duplicates_from_NoDup.
      * intros r _. apply not_elem_of_empty.
  - intros df. apply drop_duplicates_from_fixed.
    + apply drop_duplicates_from_NoDup.
    + intros r _. apply not_elem_of_empty.
  - intros df kept Hkept. apply drop_empty_text_returned in Hkept.
    destruct Hkept as [_ ->]. apply drop_empty_text_returned. split.
    + apply filter_text_mask_ok.
    + symmetry. apply filter_filter_same.
Qed.

(** X11.  The two steps of the cleaner commute: dropping the rows with a
    blank text first and the duplicates second ends as the cell does, with
    the same table or with the same raise. *)
Theorem clean_steps_commute (df : list review) :
  match drop_empty_text isspace df with
  | Returned kept => Returned (drop_duplicates kept)
  | Raised => Raised
  end = clean isspace df.
Proof.
  unfold clean, drop_empty_text. rewrite str_accessor_ok_drop_duplicates.
  destruct (str_accessor_ok df); [|reflexivity].
  f_equal. unfold drop_duplicates. apply drop_duplicates_from_filter. tauto.
Qed.

(** X12.  A cleaned table is the input with rows left out: its rows are
    rows of the input in their original order, and it is no longer than
    the input, so the count of removed rows that the cell prints,
    [initial_count - cleaned_count], is never negative. *)
Theorem clean_sublist (df cleaned : list review) :
  clean isspace df = Returned cleaned ->
  cleaned `sublist_of` df /\
  length cleaned <= length df /\
  (0 <= Z.of_nat (length df) - Z.of_nat (length cleaned))%Z.
Proof.
  intros Hclean. apply clean_returned in Hclean. destruct Hclean as [_ ->].
  assert (Hsub : List.filter (text_mask isspace) (drop_duplicates df) `sublist_of` df).
  { unfold drop_duplicates.
    etransitivity; [apply filter_sublist|apply drop_duplicates_from_sublist]. }
  pose proof (sublist_length _ _ Hsub). split; [exact Hsub|]. split; lia.
Qed.

End CleanerMore.

Lemma clean_idempotent_witness :
  clean sample_isspace sample_df = Returned [sample_valid] /\
  clean sample_isspace [sample_valid] = Returned [sample_valid].
Proof.
  assert (E : clean sample_isspace sample_df = Returned [sample_valid])
    by (vm_compute; reflexivity).
  split; [exact E|].
  exact (proj1 (clean_idempotent sample_isspace) sample_df [sample_valid] E).
Defined.

Lemma clean_sublist_witness :
  [sample_valid] `sublist_of` sample_df /\ length [sample_valid] <= length sample_df.
Proof.
  assert (E : clean sample_isspace sample_df = Returned [sample_valid])
    by (vm_compute; reflexivity).
  destruct (clean_sublist sample_isspace sample_df [sample_valid] E) as (H1 & H2 & _).
  split; [exact H1|exact H2].
Defined.

(* ================================================================== *)
(** * More of the tokenizer and of the sentiment score (cells 10, 18, 24) *)
(* ================================================================== *)

Lemma split_from_all_space (isspace : N -> bool) (s : list N) :
  Forall (fun c => isspace c = true) s -> split_from isspace [] s = [].
Proof. induction 1 as [|c s Hc _ IH]; cbn [split_from]; [reflexivity|]. now rewrite Hc. Qed.

Lemma join_In (toks : list (list N)) (tok : list N) (c : N) :
  In tok toks -> In c tok -> In c (join [SP] toks).
Proof.
  induction toks as [|t toks IH]; [intros []|].
  intros Ht Hc. destruct toks as [|t' toks].
  - destruct Ht as [->|[]]. exact Hc.
  - change (join [SP] (t :: t' :: toks)) with (t ++ SP :: join [SP] (t' :: toks)).
    apply in_app_iff. destruct Ht as [->|Ht]; [now left|].
    right. right. now apply IH.
Qed.

Section TokenizerMore.

Variable isspace isword isdigit : N -> bool.
Variable lower : list N -> list N.
Variable russian_stop : gset (list N).
Variable polarity_compound : list N -> pyfloat.

Hypothesis space_isspace : isspace SP = true.
Hypothesis digit_isword : forall c, isdigit c = true -> isword c = true.
Hypothesis word_not_space : forall c, isword c = true -> isspace c = false.

Local Abbreviation preprocess :=
  (preprocess_text isspace isword isdigit lower russian_stop).
Local Abbreviation kept_tokens text :=
  (List.filter (keep_token russian_stop)
     (word_tokenize isspace
        (digits_sub isdigit (punct_sub isspace isword (lower text))))).

Lemma kept_tokens_spec (text tok : list N) :
  In tok (kept_tokens text) ->
  is_word isspace tok /\
  forall c, In c tok -> In c (lower text) /\ isword c = true /\ isdigit c = false.
Proof using space_isspace.
  intros H. apply filter_In in H. destruct H as [H _].
  apply (tokens_before_filter_spec isspace isword isdigit lower space_isspace) in H.
  destruct H as (H1 & _ & H3). split; assumption.
Qed.

(** A cleaned text is empty or has a character that is not whitespace. *)
Lemma preprocess_text_blank (text : list N) :
  forallb isspace (preprocess text) = true -> preprocess text = [].
Proof using space_isspace.
  unfold preprocess_text. intros Hall.
  destruct (kept_tokens text) as [|tok toks] eqn:Htoks; [reflexivity|exfalso].
  destruct (kept_tokens_spec text tok) as [[Hne Hnosp] _];
    [rewrite Htoks; now left|].
  destruct tok as [|c tok]; [contradiction|].
  apply Forall_cons in Hnosp. destruct Hnosp as [Hc _].
  rewrite forallb_forall in Hall.
  rewrite (Hall c) in Hc; [discriminate|].
  apply (join_In _ (c :: tok)); now left.
Qed.

(** X13.  A cleaned text is in normal form: splitting it at whitespace and
    joining the pieces with one blank gives it back (so it has no blank at
    either end and no two blanks in a row), and each of its characters is a
    blank or a character of the lower-cased input that is a word character,
    not a digit and not whitespace. *)
Theorem preprocess_text_normal_form (text : list N) :
  join [SP] (split isspace
               (preprocess_text isspace isword isdigit lower russian_stop text))
    = preprocess_text isspace isword isdigit lower russian_stop text /\
  forall c : N,
    In c (preprocess_text isspace isword isdigit lower russian_stop text) ->
    c = SP \/
    (In c (lower text) /\ isword c = true /\ isdigit c = false /\ isspace c = false).
Proof using space_isspace.
  split.
  - pose proof (tokens_of_preprocess isspace isword isdigit lower russian_stop
                  space_isspace text) as H.
    unfold tokens_of in H. rewrite H. reflexivity.
  - intros c Hc. unfold preprocess_text in Hc. apply join_chars in Hc.
    destruct Hc as [->|(tok & Htok & Hc)]; [now left|right].
    destruct (kept_tokens_spec text tok Htok) as [[_ Hnosp] Hchars].
    rewrite List.Forall_forall in Hnosp.
    destruct (Hchars c Hc) as (H1 & H2 & H3).
    split; [exact H1|]. split; [exact H2|]. split; [exact H3|exact (Hnosp c Hc)].
Qed.

(** X14.  When the lower-cased text has nothing but whitespace, digits and
    characters that are not word characters (an empty text, "10/10",
    "!!!"), the cleaned text is empty. *)
Theorem preprocess_text_nothing_left (text : list N) :
  (forall c : N, In c (lower text) ->
     isspace c = true \/ isdigit c = true \/ isword c = false) ->
  preprocess_text isspace isword isdigit lower russian_stop text = [].
Proof using space_isspace.
  intros Hall. unfold preprocess_text, word_tokenize, split.
  rewrite split_from_all_space; [reflexivity|].
  apply List.Forall_forall. intros c Hc.
  apply (digits_sub_from_chars isdigit) in Hc.
  destruct Hc as [->|[Hc Hd]]; [exact space_isspace|].
  apply (punct_sub_chars isspace isword space_isspace) in Hc.
  destruct Hc as [[->|Hc] Hw]; [exact space_isspace|].
  destruct (Hall c Hc) as [Hs|[Hd'|Hnw]]; [exact Hs|congruence|].
  now rewrite Hnw in Hw.
Qed.

(** X15.  What the tokenizer keeps: a text that is already a sequence of
    tokens, joined by single blanks, comes back unchanged when lower-casing
    does not change it and each token is a word of at least three word
    characters without digits that is neither a stop word nor one of the
    contractions. *)
Theorem preprocess_text_keeps_tokens (toks : list (list N)) :
  lower (join [SP] toks) = join [SP] toks ->
  Forall (fun tok =>
            is_word isspace tok /\
            Forall (fun c => isword c = true /\ isdigit c = false) tok /\
            keep_token russian_stop tok = true /\
            split_contraction tok = [tok]) toks ->
  preprocess_text isspace isword isdigit lower russian_stop (join [SP] toks)
    = join [SP] toks.
Proof using space_isspace digit_isword word_not_space.
  intros Hlower Htoks. rewrite List.Forall_forall in Htoks.
  assert (Hchars : forall c, In c (join [SP] toks) ->
            c = SP \/ (isword c = true /\ isdigit c = false)).
  { intros c Hc. apply join_chars in Hc. destruct Hc as [->|(tok & Htok & Hc)].
    - now left.
    - right. destruct (Htoks tok Htok) as (_ & Hw & _).
      rewrite List.Forall_forall in Hw. now apply Hw. }
  unfold preprocess_text. rewrite Hlower.
  rewrite (punct_sub_fixed isspace isword).
  2:{ apply List.Forall_forall. intros c Hc. destruct (Hchars c Hc) as [->|[Hw _]].
      - now rewrite space_isspace, orb_true_r.
      - now rewrite Hw. }
  rewrite (digits_sub_fixed isdigit).
  2:{ apply List.Forall_forall. intros c Hc. destruct (Hchars c Hc) as [->|[_ Hd]].
      - exact (space_not_digit isspace isword isdigit space_isspace digit_isword
                 word_not_space).
      - exact Hd. }
  unfold word_tokenize. rewrite split_join.
  2:{ exact space_isspace. }
  2:{ apply List.Forall_forall. intros tok Htok. now apply Htoks. }
  rewrite flat_map_singletons
    by (apply List.Forall_forall; intros tok Htok; now apply Htoks).
  rewrite filter_all_true
    by (apply List.Forall_forall; intros tok Htok; now apply Htoks).
  reflexivity.
Qed.

(** X16.  A row has no sentiment score exactly when its cleaned text is
    empty.  So the rows that enter the correlation are exactly the rows
    with a rating, a cleaned text that is not empty and a score that is not
    NaN. *)
Theorem sentiment_score_none_iff_clean_text_empty :
  (forall r : review,
     sentiment_score isspace isword isdigit lower russian_stop polarity_compound r
       = None <->
     clean_text isspace isword isdigit lower russian_stop r = []) /\
  (forall (df : list review) (r : review),
     In r (dropna_rating_sentiment
             (sentiment_score isspace isword isdigit lower russian_stop
                polarity_compound) df) <->
     In r df /\ float_isna (rating r) = false /\
     clean_text isspace isword isdigit lower russian_stop r <> [] /\
     polarity_compound (clean_text isspace isword isdigit lower russian_stop r)
       <> NaN).
Proof using space_isspace.
  assert (Hnone : forall r : review,
            sentiment_score isspace isword isdigit lower russian_stop
              polarity_compound r = None <->
            clean_text isspace isword isdigit lower russian_stop r = []).
  { intros r. unfold sentiment_score.
    rewrite (get_sentiment_score_blank isspace polarity_compound). cbn [blank].
    unfold clean_text. split.
    - apply preprocess_text_blank.
    - intros ->. reflexivity. }
  split; [exact Hnone|].
  intros df r. unfold dropna_rating_sentiment.
  rewrite filter_In, andb_true_iff, !negb_true_iff.
  destruct (sentiment_score isspace isword isdigit lower russian_stop
              polarity_compound r) as [x|] eqn:Hs.
  - assert (Hne : clean_text isspace isword isdigit lower russian_stop r <> []).
    { intros E. apply Hnone in E. congruence. }
    assert (Hx : x = polarity_compound
                       (clean_text isspace isword isdigit lower russian_stop r)).
    { unfold sentiment_score, get_sentiment_score in Hs.
      destruct (_ || _) in Hs; [discriminate|]. now injection Hs as <-. }
    rewrite <- Hx. split.
    + intros (H1 & H2 & H3). split; [exact H1|]. split; [exact H2|].
      split; [exact Hne|]. intros ->. discriminate H3.
    + intros (H1 & H2 & _ & H4). split; [exact H1|]. split; [exact H2|].
      destruct x; try reflexivity. now contradiction H4.
  - apply Hnone in Hs. split.
    + intros (_ & _ & H3). discriminate H3.
    + intros (_ & _ & H3 & _). contradiction.
Qed.

End TokenizerMore.

Lemma preprocess_text_normal_form_witness :
  join [SP] (split sample_isspace (sample_preprocess (utf8 "Отличный фильм! 10/10")))
    = sample_preprocess (utf8 "Отличный фильм! 10/10").
Proof.
  exact (proj1 (preprocess_text_normal_form sample_isspace sample_isword
                  sample_isdigit sample_lower sample_stop eq_refl
                  (utf8 "Отличный фильм! 10/10"))).
Defined.

Lemma preprocess_text_nothing_left_witness :
  sample_preprocess (utf8 "10/10 !!!") = [].
Proof.
  apply (preprocess_text_nothing_left sample_isspace sample_isword sample_isdigit
           sample_lower sample_stop eq_refl).
  intros c Hc. vm_compute in Hc.
  repeat (destruct Hc as [<-|Hc];
          [vm_compute; first [now left | now (right; left) | now (right; right)]|]).
  destruct Hc.
Defined.

Lemma preprocess_text_keeps_tokens_witness :
  sample_preprocess (join [SP] [utf8 "отличный"; utf8 "фильм"])
    = join [SP] [utf8 "отличный"; utf8 "фильм"].
Proof.
  apply (preprocess_text_keeps_tokens sample_isspace sample_isword sample_isdigit
           sample_lower sample_stop eq_refl sample_digit_isword
           sample_word_not_space).
  - vm_compute. reflexivity.
  - repeat first [apply List.Forall_cons | apply List.Forall_nil | split];
      first [discriminate | vm_compute; reflexivity].
Defined.

Lemma sentiment_score_none_iff_clean_text_empty_witness :
  sentiment_score sample_isspace sample_isword sample_isdigit sample_lower
    sample_stop sample_compound sample_stopwords_only = None.
Proof.
  apply (proj1 (sentiment_score_none_iff_clean_text_empty sample_isspace
                  sample_isword sample_isdigit sample_lower sample_stop
                  sample_compound eq_refl)).
  vm_compute. reflexivity.
Defined.

(* ================================================================== *)
(** * The histogram of ratings (cell 12) *)
(* ================================================================== *)

Lemma Qle_bool_cases (a b : Q) :
  (Qle_bool a b = true /\ (a <= b)%Q) \/ (Qle_bool a b = false /\ (b < a)%Q).
Proof.
  destruct (Qle_bool a b) eqn:E.
  - left. split; [reflexivity|]. now apply Qle_bool_iff.
  - right. split; [reflexivity|]. apply Qnot_le_lt. intros H.
    apply Qle_bool_iff in H. congruence.
Qed.


Lemma Qeq_bool_cases (a b : Q) :
  (Qeq_bool a b = true /\ a == b) \/ (Qeq_bool a b = false /\ ~ a == b).
Proof.
  destruct (Qeq_bool a b) eqn:E.
  - left. split; [reflexivity|]. now apply Qeq_bool_iff.
  - right. split; [reflexivity|]. intros H. apply Qeq_bool_iff in H. congruence.
Qed.

Ltac split_edge e q :=
  let H := fresh "Hedge" in
  try (destruct (Qle_bool_cases e q) as [[-> H]|[-> H]];
       try (exfalso; lra); cbn [andb negb]).

Ltac eval_of_nat :=
  repeat match goal with
    | |- context [Z.of_nat ?k] =>
        let z := eval vm_compute in (Z.of_nat k) in change (Z.of_nat k) with z;
        unfold inject_Z
    end.

Lemma rating_bin_cases (q : Q) :
  ((q < -0.5 \/ 9.5 < q)%Q /\ rating_bin (Finite q) = None) \/
  (exists k : nat, (k < 10)%nat /\ (inject_Z (Z.of_nat k) - 0.5 <= q)%Q /\
     (q < inject_Z (Z.of_nat k) + 0.5 \/ (k = 9%nat /\ q == 9.5))%Q /\
     rating_bin (Finite q) = Some k).
Proof.
  unfold rating_bin.
  let e := eval vm_compute in rating_bin_edges in change rating_bin_edges with e.
  cbn [bin_from].
  split_edge (-0.5)%Q q; split_edge (0.5)%Q q; split_edge (1.5)%Q q;
  split_edge (2.5)%Q q; split_edge (3.5)%Q q; split_edge (4.5)%Q q;
  split_edge (5.5)%Q q; split_edge (6.5)%Q q; split_edge (7.5)%Q q;
  split_edge (8.5)%Q q; split_edge (9.5)%Q q.
  all: try (destruct (Qeq_bool_cases q 9.5) as [[-> Heq]|[-> Heq]]).
  all: try (left; split; [lra|reflexivity]).
  all: right; eexists; (split; [|split; [|split; [|reflexivity]]]);
    [lia| eval_of_nat; lra
    | eval_of_nat; first [left; lra | right; split; [reflexivity|lra]]].
Qed.

Lemma inject_Z_lt_succ (a b : Z) : (inject_Z a < inject_Z b + 1)%Q -> (a <= b)%Z.
Proof.
  intros H.
  assert (H' : (inject_Z a < inject_Z (b + 1))%Q) by (rewrite inject_Z_plus; exact H).
  rewrite <- Zlt_Qlt in H'. lia.
Qed.

Lemma rating_bin_None (q : Q) :
  rating_bin (Finite q) = None <-> (q < -0.5 \/ 9.5 < q)%Q.
Proof.
  destruct (rating_bin_cases q) as [[Hout ->]|(k & Hk & Hlo & Hhi & ->)].
  - split; [intros _; exact Hout|reflexivity].
  - split; [discriminate|]. intros Hout. exfalso.
    assert (H0 : (inject_Z 0 <= inject_Z (Z.of_nat k))%Q) by (rewrite <- Zle_Qle; lia).
    assert (H9 : (inject_Z (Z.of_nat k) <= inject_Z 9)%Q) by (rewrite <- Zle_Qle; lia).
    unfold inject_Z at 1 in H0. unfold inject_Z at 2 in H9.
    destruct Hhi as [Hhi|[_ Hhi]]; lra.
Qed.

Lemma rating_bin_drawn (x : pyfloat) :
  bool_decide (rating_bin x <> None) = rating_drawn x.
Proof.
  destruct x as [q| | |]; cbn [rating_drawn];
    try (apply bool_decide_eq_false; intros H; now apply H).
  destruct (Qle_bool_cases (-0.5) q) as [[-> H1]|[-> H1]];
    destruct (Qle_bool_cases q 9.5) as [[-> H2]|[-> H2]]; cbn [andb].
  - apply bool_decide_eq_true. rewrite rating_bin_None. lra.
  - apply bool_decide_eq_false. rewrite rating_bin_None. intros H. apply H. now right.
  - apply bool_decide_eq_false. rewrite rating_bin_None. intros H. apply H. now left.
  - apply bool_decide_eq_false. rewrite rating_bin_None. intros H. apply H. now left.
Qed.

(** X17.  The bar a rating is counted in.  A finite rating [q] is counted in
    bar [i] exactly when [i] is one of 0..9 and [i - 0.5 <= q < i + 0.5],
    the last bar taking its right edge 9.5 too.  So the whole ratings 0..9
    sit in the middle of their bars, and there is no bar for a rating of
    10: the edges [np.arange(0, 11) - 0.5] end at 9.5. *)
Theorem rating_bin_spec (q : Q) (i : nat) :
  rating_bin (Finite q) = Some i <->
  (i < 10)%nat /\ (inject_Z (Z.of_nat i) - 0.5 <= q)%Q /\
  ((q < inject_Z (Z.of_nat i) + 0.5)%Q \/ (i = 9%nat /\ q == 9.5)).
Proof.
  destruct (rating_bin_cases q) as [[Hout E]|(k & Hk & Hlo & Hhi & E)]; rewrite E.
  - split; [discriminate|]. intros (Hi & Hlo & Hhi). exfalso.
    assert (H0 : (inject_Z 0 <= inject_Z (Z.of_nat i))%Q) by (rewrite <- Zle_Qle; lia).
    assert (H9 : (inject_Z (Z.of_nat i) <= inject_Z 9)%Q) by (rewrite <- Zle_Qle; lia).
    unfold inject_Z at 1 in H0. unfold inject_Z at 2 in H9.
    destruct Hhi as [Hhi|[_ Hhi]]; lra.
  - split.
    + intros [= <-]. split; [exact Hk|]. split; [exact Hlo|exact Hhi].
    + intros (Hi & Hlo' & Hhi'). f_equal.
      assert (H9 : (inject_Z (Z.of_nat i) <= inject_Z 9)%Q) by (rewrite <- Zle_Qle; lia).
      assert (H9' : (inject_Z (Z.of_nat k) <= inject_Z 9)%Q) by (rewrite <- Zle_Qle; lia).
      unfold inject_Z at 2 in H9. unfold inject_Z at 2 in H9'.
      destruct Hhi as [Hhi|[-> Hhi]]; destruct Hhi' as [Hhi'|[-> Hhi']];
        try reflexivity.
      * assert (Z.of_nat i <= Z.of_nat k)%Z by (apply inject_Z_lt_succ; lra).
        assert (Z.of_nat k <= Z.of_nat i)%Z by (apply inject_Z_lt_succ; lra).
        lia.
      * assert (Z.of_nat 9 <= Z.of_nat k)%Z
          by (apply inject_Z_lt_succ; unfold inject_Z at 1; cbn [Z.of_nat Pos.of_succ_nat Pos.succ]; lra).
        lia.
      * assert (Z.of_nat 9 <= Z.of_nat i)%Z
          by (apply inject_Z_lt_succ; unfold inject_Z at 1; cbn [Z.of_nat Pos.of_succ_nat Pos.succ]; lra).
        lia.
Qed.

Lemma rating_bin_lt (x : pyfloat) (i : nat) : rating_bin x = Some i -> (i < 10)%nat.
Proof.
  destruct x as [q| | |]; try discriminate.
  destruct (rating_bin_cases q) as [[_ ->]|(k & Hk & _ & _ & ->)]; [discriminate|].
  now intros [= <-].
Qed.

Lemma list_sum_cons (a : nat) (l : list nat) : list_sum (a :: l) = a + list_sum l.
Proof. reflexivity. Qed.

Lemma list_sum_nil : list_sum [] = 0.
Proof. reflexivity. Qed.

Ltac sum_step := rewrite ?list_sum_cons, ?list_sum_nil.

Lemma list_sum_map_add {A : Type} (g h : A -> nat) (s : list A) :
  list_sum (map (fun i => g i + h i) s) = list_sum (map g s) + list_sum (map h s).
Proof. induction s as [|a s IH]; cbn [map]; sum_step; lia. Qed.

Lemma list_sum_zero {A : Type} (s : list A) : list_sum (map (fun _ => 0) s) = 0.
Proof. induction s as [|a s IH]; cbn [map]; sum_step; lia. Qed.

Lemma list_sum_indicator (k a n : nat) :
  list_sum (map (fun i => if bool_decide (k = i) then 1 else 0) (seq a n))
    = if bool_decide (a <= k < a + n) then 1 else 0.
Proof.
  revert a. induction n as [|n IH]; intros a; cbn [seq map]; sum_step.
  - rewrite bool_decide_eq_false_2 by lia. reflexivity.
  - rewrite IH. repeat case_bool_decide; lia.
Qed.

Lemma bars_total {A : Type} (f : A -> option nat) (n : nat) (l : list A) :
  (forall x i, f x = Some i -> i < n) ->
  list_sum (map (fun i => length (List.filter (fun x => bool_decide (f x = Some i)) l))
              (seq 0 n))
    = length (List.filter (fun x => bool_decide (f x <> None)) l).
Proof.
  intros Hlt. induction l as [|x l IH].
  - cbn [List.filter length]. apply list_sum_zero.
  - cbn [List.filter].
    rewrite (map_ext _ (fun i => length (List.filter (fun x => bool_decide (f x = Some i)) l)
                                 + (if bool_decide (f x = Some i) then 1 else 0))).
    2:{ intros i. case_bool_decide; cbn [length]; lia. }
    rewrite list_sum_map_add, IH.
    destruct (f x) as [k|] eqn:Hk.
    + rewrite (map_ext _ (fun i => if bool_decide (k = i) then 1 else 0)).
      2:{ intros i. repeat case_bool_decide; congruence. }
      rewrite list_sum_indicator.
      rewrite bool_decide_eq_true_2 by (specialize (Hlt x k Hk); lia).
      rewrite bool_decide_eq_true_2 by discriminate. cbn [length]. lia.
    + rewrite (map_ext _ (fun i => 0)).
      2:{ intros i. now rewrite bool_decide_eq_false_2 by discriminate. }
      rewrite bool_decide_eq_false_2 by (intros H; now apply H).
      rewrite list_sum_zero. lia.
Qed.

Lemma ratings_dropna_drawn (df : list review) :
  length (List.filter rating_drawn (ratings_dropna df)) = length (List.filter row_drawn df).
Proof.
  unfold ratings_dropna.
  induction df as [|r df IH]; [reflexivity|].
  cbn [omap list_omap List.filter]. unfold row_drawn at 1.
  fold (omap (fun r => if float_isna (rating r) then None else rating r) df).
  destruct (rating r) as [[q| | |]|]; cbn [float_isna List.filter rating_drawn].
  - destruct (_ && _); cbn [length]; now rewrite IH.
  - exact IH.
  - exact IH.
  - exact IH.
  - exact IH.
Qed.

(** X18.  The histogram has ten bars, and together they count the rows whose
    rating lies between -0.5 and 9.5: rows without a rating or with NaN are
    dropped before, and each other row is in one bar or in none. *)
Theorem rating_histogram_total (df : list review) :
  length (rating_histogram (ratings_dropna df)) = 10%nat /\
  list_sum (rating_histogram (ratings_dropna df)) = length (List.filter row_drawn df).
Proof.
  split.
  - unfold rating_histogram. now rewrite length_map, length_seq.
  - unfold rating_histogram. rewrite (bars_total rating_bin 10) by exact rating_bin_lt.
    rewrite (filter_ext _ rating_drawn) by exact rating_bin_drawn.
    apply ratings_dropna_drawn.
Qed.

(** X19.  A rating outside the edges (10, a negative rating, an infinity)
    changes no bar, wherever it stands among the ratings. *)
Theorem rating_outside_edges_in_no_bar (ratings1 ratings2 : list pyfloat) (x : pyfloat) :
  rating_drawn x = false ->
  rating_histogram (ratings1 ++ x :: ratings2) = rating_histogram (ratings1 ++ ratings2).
Proof.
  intros Hx. unfold rating_histogram. apply map_ext. intros i.
  rewrite !List.filter_app. cbn [List.filter].
  rewrite <- rating_bin_drawn in Hx. apply bool_decide_eq_false in Hx.
  rewrite bool_decide_eq_false_2; [reflexivity|].
  intros E. apply Hx. now rewrite E.
Qed.

Lemma rating_outside_edges_in_no_bar_witness :
  rating_histogram ([Finite 7] ++ Finite 10 :: [Finite 3])
    = rating_histogram ([Finite 7] ++ [Finite 3]).
Proof.
  apply (rating_outside_edges_in_no_bar [Finite 7] [Finite 3] (Finite 10)).
  vm_compute. reflexivity.
Defined.

(* ================================================================== *)
(** * Reviews per month (cell 14) *)
(* ================================================================== *)

Lemma period_ltb_spec (p q : Z * Z) :
  period_ltb p q = true <->
  (fst p < fst q \/ (fst p = fst q /\ snd p < snd q))%Z.
Proof.
  unfold period_ltb.
  rewrite orb_true_iff, andb_true_iff, !Z.ltb_lt, Z.eqb_eq. reflexivity.
Qed.

Lemma period_ltb_trans (p q r : Z * Z) :
  period_ltb p q = true -> period_ltb q r = true -> period_ltb p r = true.
Proof. rewrite !period_ltb_spec. lia. Qed.

Lemma period_ltb_irrefl (p : Z * Z) : period_ltb p p = false.
Proof.
  destruct (period_ltb p p) eqn:E; [|reflexivity].
  apply period_ltb_spec in E. lia.
Qed.

Lemma period_ltb_total (p q : Z * Z) :
  p <> q -> period_ltb p q = false -> period_ltb q p = true.
Proof.
  intros Hne Hlt. apply period_ltb_spec.
  assert (H : ~ (fst p < fst q \/ (fst p = fst q /\ snd p < snd q))%Z).
  { rewrite <- period_ltb_spec. congruence. }
  destruct p as [a b], q as [c d]. cbn [fst snd] in *.
  assert (a <> c \/ b <> d) by (destruct (decide (a = c)); [right; congruence|now left]).
  lia.
Qed.

Lemma month_count_nil (p : Z * Z) : month_count p [] = 0.
Proof. reflexivity. Qed.

Lemma month_count_cons (p q : Z * Z) (n : nat) (groups : list (Z * Z * nat)) :
  month_count p ((q, n) :: groups)
    = (if bool_decide (q = p) then n else 0) + month_count p groups.
Proof.
  unfold month_count. cbn [List.filter fst].
  case_bool_decide; cbn [map snd]; sum_step; lia.
Qed.

Ltac bump_cases p k H :=
  destruct (decide (p = k)) as [H|H];
  [rewrite (bool_decide_eq_true_2 (p = k) H)
  |rewrite (bool_decide_eq_false_2 (p = k) H)].

Lemma month_count_bump (p q : Z * Z) (groups : list (Z * Z * nat)) :
  month_count q (bump p groups)
    = month_count q groups + (if bool_decide (p = q) then 1 else 0).
Proof.
  induction groups as [|[k n] groups IH]; cbn [bump].
  - rewrite month_count_cons, month_count_nil. lia.
  - bump_cases p k Hpk.
    + subst k. rewrite !month_count_cons. case_bool_decide; lia.
    + destruct (period_ltb p k).
      * rewrite !month_count_cons. lia.
      * rewrite !month_count_cons, IH. lia.
Qed.

Lemma bump_keys (p : Z * Z) (groups : list (Z * Z * nat)) (g : Z * Z * nat) :
  In g (bump p groups) -> fst g = p \/ exists g', In g' groups /\ fst g' = fst g.
Proof.
  induction groups as [|[k n] groups IH]; cbn [bump].
  - intros [<-|[]]. now left.
  - bump_cases p k Hpk.
    + intros [<-|H]; [left; now subst|right; exists g; split; [now right|reflexivity]].
    + destruct (period_ltb p k).
      * intros [<-|H]; [now left|right; exists g; split; [exact H|reflexivity]].
      * intros [<-|H].
        -- right. exists (k, n). split; [now left|reflexivity].
        -- destruct (IH H) as [E|(g' & Hg' & E)]; [now left|].
           right. exists g'. split; [now right|exact E].
Qed.

Lemma bump_positive (p : Z * Z) (groups : list (Z * Z * nat)) :
  List.Forall (fun g => 0 < snd g) groups ->
  List.Forall (fun g => 0 < snd g) (bump p groups).
Proof.
  induction groups as [|[k n] groups IH]; cbn [bump]; intros H.
  - constructor; [cbn; lia|constructor].
  - inversion H as [|? ? Hn Hrest]; subst.
    bump_cases p k Hpk.
    + constructor; [cbn; lia|exact Hrest].
    + destruct (period_ltb p k).
      * constructor; [cbn; lia|exact H].
      * constructor; [exact Hn|exact (IH Hrest)].
Qed.

Lemma bump_increasing (p : Z * Z) (groups : list (Z * Z * nat)) :
  periods_increasing groups -> periods_increasing (bump p groups).
Proof.
  unfold periods_increasing.
  induction groups as [|[k n] groups IH]; cbn [bump]; intros H.
  - constructor; constructor.
  - inversion H as [|? ? Hs Hall]; subst.
    bump_cases p k Hpk.
    + constructor; [exact Hs|exact Hall].
    + destruct (period_ltb p k) eqn:Hlt.
      * constructor; [exact H|].
        constructor; [exact Hlt|].
        rewrite List.Forall_forall in Hall |- *. intros g Hg.
        exact (period_ltb_trans _ _ _ Hlt (Hall g Hg)).
      * constructor; [exact (IH Hs)|].
        rewrite List.Forall_forall in Hall |- *. intros g Hg.
        destruct (bump_keys _ _ _ Hg) as [E|(g' & Hg' & E)].
        -- rewrite E. cbn [fst]. apply period_ltb_total; [congruence|exact Hlt].
        -- rewrite <- E. exact (Hall g' Hg').
Qed.

Lemma month_count_absent (p : Z * Z) (groups : list (Z * Z * nat)) :
  (forall g, In g groups -> fst g <> p) -> month_count p groups = 0.
Proof.
  induction groups as [|[k n] groups IH]; intros H; [reflexivity|].
  rewrite month_count_cons, IH by (intros g Hg; apply H; now right).
  rewrite bool_decide_eq_false_2; [reflexivity|].
  exact (H (k, n) (or_introl eq_refl)).
Qed.

Lemma In_month_count (groups : list (Z * Z * nat)) (p : Z * Z) (n : nat) :
  periods_increasing groups ->
  List.Forall (fun g => 0 < snd g) groups ->
  (In (p, n) groups <-> n = month_count p groups /\ 0 < n).
Proof.
  unfold periods_increasing.
  induction groups as [|[k m] groups IH]; intros Hs Hpos.
  - rewrite month_count_nil. cbn [In]. lia.
  - inversion Hs as [|? ? Hs' Hall]; subst.
    inversion Hpos as [|? ? Hm Hpos']; subst. cbn [snd] in Hm.
    rewrite List.Forall_forall in Hall. cbn [fst] in Hall.
    assert (Habs : forall g, In g groups -> fst g <> k).
    { intros g Hg E. specialize (Hall g Hg). rewrite E, period_ltb_irrefl in Hall.
      discriminate. }
    rewrite month_count_cons. cbn [In]. case_bool_decide as Hkp.
    + subst k. rewrite (month_count_absent p groups Habs). split.
      * intros [[= ->]|Hin]; [lia|]. now destruct (Habs _ Hin).
      * intros [-> _]. left. f_equal. lia.
    + rewrite <- (IH Hs' Hpos'). split.
      * intros [[= -> ->]|Hin]; [now destruct Hkp|exact Hin].
      * intros Hin. now right.
Qed.

Lemma rows_of_month_cons (p : Z * Z) (r : review) (df : list review) :
  rows_of_month p (r :: df)
    = (if bool_decide (year_month r = Some p) then 1 else 0) + rows_of_month p df.
Proof.
  unfold rows_of_month. cbn [List.filter]. case_bool_decide; cbn [length]; lia.
Qed.

Lemma reviews_per_month_from (df : list review) (groups : list (Z * Z * nat)) :
  let result :=
    fold_left (fun groups r =>
                 match year_month r with
                 | Some p => bump p groups
                 | None => groups
                 end) df groups in
  (periods_increasing groups -> periods_increasing result) /\
  (List.Forall (fun g => 0 < snd g) groups -> List.Forall (fun g => 0 < snd g) result) /\
  (forall p, month_count p result = month_count p groups + rows_of_month p df).
Proof.
  revert groups. induction df as [|r df IH]; intros groups; cbn [fold_left].
  - split; [tauto|]. split; [tauto|]. intros p. unfold rows_of_month. cbn. lia.
  - destruct (IH (match year_month r with Some p => bump p groups | None => groups end))
      as (H1 & H2 & H3).
    split; [|split].
    + intros H. apply H1. destruct (year_month r); [now apply bump_increasing|exact H].
    + intros H. apply H2. destruct (year_month r); [now apply bump_positive|exact H].
    + intros p. rewrite H3, rows_of_month_cons.
      destruct (year_month r) as [q|].
      * rewrite month_count_bump.
        destruct (decide (q = p)) as [->|Hne].
        -- rewrite !bool_decide_eq_true_2 by reflexivity. lia.
        -- rewrite !bool_decide_eq_false_2 by congruence. lia.
      * rewrite bool_decide_eq_false_2 by discriminate. lia.
Qed.

(** X20.  The table of reviews per month has a line [(p, n)] exactly when
    [n] rows of the table are dated in month [p] and [n] is not zero: each
    month that has a review is there once with its number of rows, a month
    without reviews is not there at all, and rows without a date are
    counted nowhere. *)
Theorem reviews_per_month_counts (df : list review) (p : Z * Z) (n : nat) :
  In (p, n) (reviews_per_month df) <-> n = rows_of_month p df /\ 0 < n.
Proof.
  destruct (reviews_per_month_from df []) as (H1 & H2 & H3).
  fold (reviews_per_month df) in H1, H2, H3.
  rewrite In_month_count.
  - now rewrite H3, month_count_nil.
  - apply H1. constructor.
  - apply H2. constructor.
Qed.

(** X21.  The months of the table come in increasing order, whatever the
    order of the rows. *)
Theorem reviews_per_month_increasing (df : list review) :
  StronglySorted (fun a b => period_ltb (fst a) (fst b) = true) (reviews_per_month df).
Proof.
  destruct (reviews_per_month_from df []) as (H1 & _ & _).
  apply H1. constructor.
Qed.
